(** * Contest participation system: data model, grading, ledger, ranking

    A shallow embedding of the Express/Mongoose back end:
    - [models/Contest.js]        contest schema, [updateStatus], pre-save hook
    - [models/Participation.js]  participation schema, [calculateScore],
                                 [calculateTimeSpent]
    - [services/userService.js]  [joinContest], [submitContest],
                                 [contestLeaderboard]
    - [services/adminService.js] [addQuestion], [editQuestion],
                                 [deleteQuestion], [getLeaderboard]

    Conventions.  A JavaScript [Date] is its millisecond value, an integer
    ([Z]); [null] dates are [None].  Counters, points and indices are
    non-negative integers below 2^53, where JavaScript arithmetic is exact;
    they are [nat].  Mongo ObjectIds are [nat].  The clock ([new Date()],
    [Date.now]) is an explicit argument of every function that reads it. *)

From Stdlib Require Import ZArith List Bool Lia.
From stdpp Require Import base decidable option list strings pretty sorting gmap.

Local Open Scope Z_scope.

(** ** models/Contest.js *)

Inductive QuestionType := single_select | multi_select | true_false.
Inductive ContestType := NORMAL | VIP.
Inductive Status := UPCOMING | ONGOING | ENDED.

#[global] Instance QuestionType_eq_dec : EqDecision QuestionType.
Proof. solve_decision. Defined.
#[global] Instance ContestType_eq_dec : EqDecision ContestType.
Proof. solve_decision. Defined.
#[global] Instance Status_eq_dec : EqDecision Status.
Proof. solve_decision. Defined.

(** One entry of [question.options]; the schema calls the text [option]. *)
Record Opt := mkOpt {
  optionText : string;
  isCorrect : bool
}.

Record Question := mkQuestion {
  questionText : string;
  qtype : QuestionType;
  options : list Opt;
  points : nat
}.

Record Contest := mkContest {
  name : string;
  description : string;
  ctype : ContestType;
  startTime : Z;
  endTime : Z;
  prizeInfo : string;
  status : Status;
  questions : list Question;
  maxParticipants : nat;
  currentParticipants : nat;
  isActive : bool
}.

Definition set_status (c : Contest) (s : Status) : Contest :=
  mkContest (name c) (description c) (ctype c) (startTime c) (endTime c)
    (prizeInfo c) s (questions c) (maxParticipants c)
    (currentParticipants c) (isActive c).

Definition set_questions (c : Contest) (qs : list Question) : Contest :=
  mkContest (name c) (description c) (ctype c) (startTime c) (endTime c)
    (prizeInfo c) (status c) qs (maxParticipants c)
    (currentParticipants c) (isActive c).

Definition set_currentParticipants (c : Contest) (n : nat) : Contest :=
  mkContest (name c) (description c) (ctype c) (startTime c) (endTime c)
    (prizeInfo c) (status c) (questions c) (maxParticipants c)
    n (isActive c).

(** [contestSchema.methods.updateStatus]: the status written from the clock
    (the document is then saved). *)
Definition updateStatus (c : Contest) (now : Z) : Contest :=
  if now <? startTime c then set_status c UPCOMING
  else if (now >=? startTime c) && (now <=? endTime c) then set_status c ONGOING
  else set_status c ENDED.

(** The [endTime] validator of the schema: [endTime > this.startTime]. *)
Definition endTime_valid (c : Contest) : Prop := startTime c < endTime c.

(** [contestSchema.pre('save')]: the per-question checks.  The hook calls
    [next(err)] for every failing check and [next()] at the end; Mongoose
    honours the first call only, so the save fails exactly when some check
    fails. *)
Definition question_presave_ok (question : Question) : bool :=
  let correctOptions := List.filter isCorrect (options question) in
  negb (length correctOptions =? 0)%nat
  && negb (bool_decide (qtype question = single_select)
           && (1 <? length correctOptions)%nat)
  && negb (bool_decide (qtype question = true_false)
           && (negb (length (options question) =? 2)%nat
               || negb (length correctOptions =? 1)%nat)).

Definition presave_ok (c : Contest) : bool :=
  forallb question_presave_ok (questions c).

(** ** models/Participation.js *)

Record Answer := mkAnswer {
  questionIndex : nat;
  selectedOptions : list nat;
  answerIsCorrect : bool;
  pointsEarned : nat
}.

Record Participation := mkParticipation {
  userId : nat;
  contestId : nat;
  joinedAt : Z;
  submittedAt : option Z;
  answers : list Answer;
  score : nat;
  totalQuestions : nat;
  correctAnswers : nat;
  wrongAnswers : nat;
  rank : option nat;
  isCompleted : bool;
  timeSpent : Z
}.

Definition set_rank (p : Participation) (r : option nat) : Participation :=
  mkParticipation (userId p) (contestId p) (joinedAt p) (submittedAt p)
    (answers p) (score p) (totalQuestions p) (correctAnswers p)
    (wrongAnswers p) r (isCompleted p) (timeSpent p).

Definition set_timeSpent (p : Participation) (t : Z) : Participation :=
  mkParticipation (userId p) (contestId p) (joinedAt p) (submittedAt p)
    (answers p) (score p) (totalQuestions p) (correctAnswers p)
    (wrongAnswers p) (rank p) (isCompleted p) t.

(** *** Array.prototype.sort without a comparator

    The default order of [sort()] compares the elements' string forms code
    unit by code unit, so [[10, 9, 1].sort()] is [[1, 10, 9]]. *)
Definition js_default_le (x y : nat) : Prop :=
  String.leb (pretty x) (pretty y) = true.

#[global] Instance js_default_le_dec x y : Decision (js_default_le x y).
Proof. unfold js_default_le. apply _. Defined.

Definition js_sort (l : list nat) : list nat := merge_sort js_default_le l.

(** [arr.every((x, index) => f(x, index))], scanning from index [i]. *)
Fixpoint every_from {A} (f : A -> nat -> bool) (i : nat) (l : list A) : bool :=
  match l with
  | [] => true
  | x :: l' => f x i && every_from f (S i) l'
  end.

Definition every {A} (f : A -> nat -> bool) (l : list A) : bool :=
  every_from f 0 l.

(** [question.options.map((option, index) => ({index, isCorrect}))
      .filter(o => o.isCorrect).map(o => o.index)] *)
Definition correctOptions (question : Question) : list nat :=
  (fun o => o.1) <$>
    filter (fun o => o.2 = true)
      (imap (fun index option => (index, isCorrect option)) (options question)).

(** The option indices whose correctness flag is true, read off the
    question itself. *)
Definition is_correct_index (question : Question) (i : nat) : Prop :=
  isCorrect <$> options question !! i = Some true.

#[global] Instance is_correct_index_dec question i :
  Decision (is_correct_index question i).
Proof. unfold is_correct_index. apply _. Defined.

(** [question.options[answer.selectedOptions[0]]] and the test
    [selectedOption && selectedOption.isCorrect]; an absent element is
    [undefined], which is falsy. *)
Definition firstSelectedIsCorrect (question : Question) (answer : Answer) : bool :=
  match selectedOptions answer !! 0%nat with
  | None => false
  | Some k =>
      match options question !! k with
      | None => false
      | Some selectedOption => isCorrect selectedOption
      end
  end.

(** The multi-select branch.  [sort()] works in place, so the answer keeps
    the sorted selection; the pair is (sorted selection, isCorrect). *)
Definition multiSelectIsCorrect (question : Question) (selected : list nat)
  : list nat * bool :=
  let selectedOptions := js_sort selected in
  let correctOptionsSorted := js_sort (correctOptions question) in
  (selectedOptions,
   (length selectedOptions =? length correctOptionsSorted)%nat
   && every (fun option index =>
               bool_decide (correctOptionsSorted !! index = Some option))
            selectedOptions).

(** The running totals of [calculateScore]. *)
Record Tally := mkTally {
  totalScore : nat;
  correctCount : nat;
  wrongCount : nat
}.

(** The body of the [forEach] callback of [calculateScore] for one answer. *)
Definition gradeAnswer (contestQuestions : list Question)
    (t : Tally) (answer : Answer) : Tally * Answer :=
  match contestQuestions !! questionIndex answer with
  | None => (t, answer)                      (* if (!question) return; *)
  | Some question =>
      let '(selected, isCorrect) :=
        match qtype question with
        | single_select =>
            (selectedOptions answer, firstSelectedIsCorrect question answer)
        | multi_select =>
            multiSelectIsCorrect question (selectedOptions answer)
        | true_false =>
            (selectedOptions answer, firstSelectedIsCorrect question answer)
        end in
      let earned := if isCorrect then points question else 0%nat in
      (mkTally (totalScore t + earned)
               (if isCorrect then S (correctCount t) else correctCount t)
               (if isCorrect then wrongCount t else S (wrongCount t)),
       mkAnswer (questionIndex answer) selected isCorrect earned)
  end.

(** [this.answers.forEach(...)] threading the totals. *)
Fixpoint gradeAnswers (contestQuestions : list Question)
    (t : Tally) (l : list Answer) : Tally * list Answer :=
  match l with
  | [] => (t, [])
  | answer :: rest =>
      let '(t1, answer1) := gradeAnswer contestQuestions t answer in
      let '(t2, rest2) := gradeAnswers contestQuestions t1 rest in
      (t2, answer1 :: rest2)
  end.

(** [participationSchema.methods.calculateScore]; [now] is the [new Date()]
    stamped into [submittedAt].  Returns the mutated document and the
    returned summary. *)
Definition calculateScore (this : Participation)
    (contestQuestions : list Question) (now : Z) : Participation * Tally :=
  let '(t, graded) :=
    gradeAnswers contestQuestions (mkTally 0 0 0) (answers this) in
  (mkParticipation (userId this) (contestId this) (joinedAt this) (Some now)
     graded (totalScore t) (totalQuestions this) (correctCount t)
     (wrongCount t) (rank this) true (timeSpent this),
   t).

(** [participationSchema.methods.calculateTimeSpent]:
    [Math.floor((submittedAt - joinedAt) / 1000)] when [submittedAt] is set. *)
Definition calculateTimeSpent (this : Participation) : Participation :=
  match submittedAt this with
  | Some s => set_timeSpent this ((s - joinedAt this) / 1000)
  | None => this
  end.

(** ** The request/response layer shared by the services *)

Inductive Role := normal | vip | admin.

#[global] Instance Role_eq_dec : EqDecision Role.
Proof. solve_decision. Defined.

(** [req.user] as the authentication middleware attaches it. *)
Record User := mkUser {
  user_id : nat;
  role : Role
}.

(** One element of [req.body.answers] after the Joi schema [submitAnswers]
    (integers, non-negative). *)
Record AnswerInput := mkAnswerInput {
  in_questionIndex : nat;
  in_selectedOptions : list nat
}.

(** [req.body] of the question routes after the Joi schema [addQuestion]. *)
Record QuestionInput := mkQuestionInput {
  in_questionText : string;
  in_type : QuestionType;
  in_options : list Opt;
  in_points : nat
}.

(** The JSON bodies the handlers send, one constructor per literal in the
    source (the [message] text is quoted next to each). *)
Inductive Message :=
  | ContestNotFound            (* "Contest not found" *)
  | ContestNotActive           (* "Contest is not active" *)
  | AccessDeniedVIP            (* "Access denied. VIP contests are only available to VIP users" *)
  | AlreadyJoinedContest       (* "You have already joined this contest" *)
  | ContestNotStarted          (* "Contest has not started yet" *)
  | ContestAlreadyEnded        (* "Contest has already ended" *)
  | ContestNotCurrentlyActive  (* "Contest is not currently active" *)
  | ContestIsFull              (* "Contest is full" *)
  | JoinedContest (participation : Participation)
                               (* "Successfully joined the contest" *)
  | MustJoinBeforeSubmitting   (* "You must join the contest before submitting answers" *)
  | AlreadySubmitted           (* "You have already submitted your answers" *)
  | ContestEndedCannotSubmit   (* "Contest has ended. Cannot submit answers" *)
  | MustAnswerAll (n : nat)    (* "You must answer all ${n} questions" *)
  | InvalidQuestionIndex (i : nat)
                               (* "Invalid question index: ${i}" *)
  | InvalidOptionIndex (optionIndex questionNumber : nat)
                               (* "Invalid option index ${o} for question ${n}" *)
  | RequiresExactlyOneAnswer (questionNumber : nat)
                               (* "Question ${n} requires exactly one answer" *)
  | AnswersSubmitted (summary : Tally) (totalQuestions : nat)
      (submittedAt : option Z) (timeSpent : Z)
                               (* "Answers submitted successfully" *)
  | AccessDeniedLeaderboard    (* "Access denied. VIP contest leaderboards are only available to VIP users" *)
  | Leaderboard (leaderboard : list Participation) (userRank : option nat)
  | CannotAddAfterStart        (* "Cannot add questions to contest after it has started" *)
  | TrueFalseNeedsTwoOptions   (* "True/False questions must have exactly 2 options" *)
  | SingleSelectNeedsOneCorrect (* "Single-select questions must have exactly one correct option" *)
  | NeedsOneCorrectOption      (* "Question must have at least one correct option" *)
  | QuestionAdded (question : option Question) (totalQuestions : nat)
                               (* "Question added successfully" *)
  | InvalidQuestionIndexParam  (* "Invalid question index" *)
  | CannotUpdateAfterStart     (* "Cannot update questions after contest has started" *)
  | QuestionUpdated (question : option Question)
                               (* "Question updated successfully" *)
  | CannotDeleteAfterStart     (* "Cannot delete questions after contest has started" *)
  | QuestionDeleted (totalQuestions : nat)
                               (* "Question deleted successfully" *)
  | AdminLeaderboard (leaderboard : list Participation)
  | InternalServerError.       (* "Internal Server Error" *)

(** What [res.status(code).json({success, ...})] puts on the wire. *)
Record Reply := mkReply {
  statusCode : nat;
  success : bool;
  body : Message
}.

(** The error kinds of the specification (section 7) and the replies that
    carry them. *)
Inductive ErrorKind :=
  | NotFound | AccessDenied | NotOpen | Full | AlreadyJoined
  | AlreadyCompleted | Ended | AnswerCountMismatch | InvalidAnswer
  | StoreUnavailable.

Definition error_kind (r : Reply) : option ErrorKind :=
  if success r then None else
  match body r with
  | ContestNotFound | ContestNotActive | MustJoinBeforeSubmitting => Some NotFound
  | AccessDeniedVIP | AccessDeniedLeaderboard => Some AccessDenied
  | AlreadyJoinedContest => Some AlreadyJoined
  | ContestNotStarted | ContestAlreadyEnded | ContestNotCurrentlyActive => Some NotOpen
  | ContestIsFull => Some Full
  | AlreadySubmitted => Some AlreadyCompleted
  | ContestEndedCannotSubmit => Some Ended
  | MustAnswerAll _ => Some AnswerCountMismatch
  | InvalidQuestionIndex _ | InvalidOptionIndex _ _
  | RequiresExactlyOneAnswer _ => Some InvalidAnswer
  | InternalServerError => Some StoreUnavailable
  | _ => None
  end.

(** The two collections. [Contest.findById] is a lookup by key; the
    participations are kept in insertion order and a document is addressed
    by its position. *)
Record Store := mkStore {
  contests : gmap nat Contest;
  participations : list Participation
}.

(** The state a handler runs in: the store and the response object, whose
    headers are sent by the first [json]. *)
Record World := mkWorld {
  store : Store;
  sent : option Reply
}.

Inductive Exn :=
  | ERR_HTTP_HEADERS_SENT   (* a second [res.json] on the same response *)
  | ValidationError         (* a [save] refused by the pre-save hook *)
  | DuplicateKeyError.      (* the unique index on (userId, contestId) *)

Inductive Completion (A : Type) :=
  | Normal (a : A)
  | Throw (e : Exn).
Arguments Normal {A} a.
Arguments Throw {A} e.

(** A handler computation: state passing with exceptions; the state reached
    before a throw is kept. *)
Definition Handler (A : Type) : Type := World -> Completion A * World.

#[global] Instance Handler_ret : MRet Handler :=
  fun A (a : A) w => (Normal a, w).

#[global] Instance Handler_bind : MBind Handler :=
  fun A B (k : A -> Handler B) (m : Handler A) w =>
    match m w with
    | (Normal a, w') => k a w'
    | (Throw e, w') => (Throw e, w')
    end.

(** [try { body } catch (error) { handler }] *)
Definition try_catch {A} (body : Handler A) (handler : Exn -> Handler A)
  : Handler A :=
  fun w =>
    match body w with
    | (Normal a, w') => (Normal a, w')
    | (Throw e, w') => handler e w'
    end.

(** [arr.forEach((x, index) => f(x, index))]: the callback's own [return]
    ends one call of the callback only; a throw ends the loop. *)
Fixpoint forEach_from {A} (f : A -> nat -> Handler unit) (i : nat)
    (l : list A) : Handler unit :=
  match l with
  | [] => mret tt
  | x :: l' => f x i ;; forEach_from f (S i) l'
  end.

Definition forEach {A} (f : A -> nat -> Handler unit) (l : list A)
  : Handler unit :=
  forEach_from f 0 l.

(** [res.status(code).json(body)].  Express refuses to write headers
    twice: once a reply is out, a further [json] throws. *)
Definition res_json (code : nat) (ok : bool) (m : Message) : Handler unit :=
  fun w =>
    match sent w with
    | None => (Normal tt, mkWorld (store w) (Some (mkReply code ok m)))
    | Some _ => (Throw ERR_HTTP_HEADERS_SENT, w)
    end.

(** The [catch] block every handler ends with:
    [return res.json({success: false, message: "Internal Server Error"})]. *)
Definition internal_error (_ : Exn) : Handler unit :=
  res_json 200 false InternalServerError.

(** *** Store access *)

Definition Contest_findById (id : nat) : Handler (option Contest) :=
  fun w => (Normal (contests (store w) !! id), w).

(** [contest.save()], running the pre-save hook. *)
Definition Contest_save (id : nat) (c : Contest) : Handler unit :=
  fun w =>
    if presave_ok c
    then (Normal tt,
          mkWorld (mkStore (<[id := c]> (contests (store w)))
                           (participations (store w)))
                  (sent w))
    else (Throw ValidationError, w).

Definition is_participation_of (uid cid : nat) (p : Participation) : Prop :=
  userId p = uid /\ contestId p = cid.

#[global] Instance is_participation_of_dec uid cid p :
  Decision (is_participation_of uid cid p).
Proof. unfold is_participation_of. apply _. Defined.

(** [Participation.findOne({userId, contestId})]: position and document. *)
Definition Participation_findOne (uid cid : nat)
  : Handler (option (nat * Participation)) :=
  fun w =>
    (Normal (list_find (is_participation_of uid cid)
               (participations (store w))), w).

(** [Participation.create({userId, contestId, totalQuestions})] with the
    schema defaults; [now] is the [Date.now] default of [joinedAt]. *)
Definition new_participation (uid cid total : nat) (now : Z) : Participation :=
  mkParticipation uid cid now None [] 0 total 0 0 None false 0.

Definition Participation_create (uid cid total : nat) (now : Z)
  : Handler Participation :=
  fun w =>
    match list_find (is_participation_of uid cid) (participations (store w)) with
    | Some _ => (Throw DuplicateKeyError, w)
    | None =>
        let p := new_participation uid cid total now in
        (Normal p,
         mkWorld (mkStore (contests (store w))
                          (participations (store w) ++ [p]))
                 (sent w))
    end.

(** [participation.save()] for the document found at position [i]. *)
Definition Participation_save (i : nat) (p : Participation) : Handler unit :=
  fun w =>
    (Normal tt,
     mkWorld (mkStore (contests (store w))
                      (<[i := p]> (participations (store w))))
             (sent w)).

(** What a request leaves behind: the store, the reply the client got, and
    whether the handler's promise rejected. *)
Record Outcome := mkOutcome {
  final : Store;
  response : option Reply;
  rejected : bool
}.

Definition run (h : Handler unit) (s : Store) : Outcome :=
  match h (mkWorld s None) with
  | (Normal _, w) => mkOutcome (store w) (sent w) false
  | (Throw _, w) => mkOutcome (store w) (sent w) true
  end.

(** [Model.find(filter)] and [Model.countDocuments(filter)] over the
    participations. *)
Definition Participation_find (P : Participation -> Prop)
    `{forall p, Decision (P p)} : Handler (list Participation) :=
  fun w => (Normal (filter P (participations (store w))), w).

Definition Participation_countDocuments (P : Participation -> Prop)
    `{forall p, Decision (P p)} : Handler nat :=
  fun w => (Normal (length (filter P (participations (store w)))), w).

(** *** The ranking order [.sort({score: -1, submittedAt: 1})]

    Higher score first, then earlier [submittedAt]; in an ascending Mongo
    sort [null] comes before every date. *)
Definition date_le (a b : option Z) : Prop :=
  match a, b with
  | None, _ => True
  | Some _, None => False
  | Some x, Some y => x <= y
  end.

#[global] Instance date_le_dec a b : Decision (date_le a b).
Proof. destruct a, b; simpl; apply _. Defined.

Definition ranking_le (p q : Participation) : Prop :=
  (score q < score p)%nat
  \/ (score p = score q /\ date_le (submittedAt p) (submittedAt q)).

#[global] Instance ranking_le_dec p q : Decision (ranking_le p q).
Proof. unfold ranking_le. apply _. Defined.

(** The sorted cursor.  Documents equal in both keys compare as ties, and
    the store promises no order among them; here they come out as the merge
    sort leaves them. *)
Definition mongo_sort (l : list Participation) : list Participation :=
  merge_sort ranking_le l.

(** [leaderboard.forEach((participant, index) => participant.rank = index + 1)] *)
Definition assign_ranks (leaderboard : list Participation) : list Participation :=
  imap (fun index participant => set_rank participant (Some (index + 1)%nat))
       leaderboard.

(** The [$lt] of a query matches dates only: a [null] on either side never
    counts as earlier. *)
Definition date_lt (a b : option Z) : Prop :=
  match a, b with
  | Some x, Some y => x < y
  | _, _ => False
  end.

#[global] Instance date_lt_dec a b : Decision (date_lt a b).
Proof. destruct a, b; simpl; apply _. Defined.

(** The [$or] filter of the rank count in [contestLeaderboard]. *)
Definition strictly_ahead (mine : Participation) (p : Participation) : Prop :=
  (score mine < score p)%nat
  \/ (score p = score mine /\ date_lt (submittedAt p) (submittedAt mine)).

#[global] Instance strictly_ahead_dec mine p : Decision (strictly_ahead mine p).
Proof. unfold strictly_ahead. apply _. Defined.

Definition completed_in (cid : nat) (p : Participation) : Prop :=
  contestId p = cid /\ isCompleted p = true.

#[global] Instance completed_in_dec cid p : Decision (completed_in cid p).
Proof. unfold completed_in. apply _. Defined.

Definition in_contest (cid : nat) (p : Participation) : Prop :=
  contestId p = cid.

#[global] Instance in_contest_dec cid p : Decision (in_contest cid p).
Proof. unfold in_contest. apply _. Defined.

(** ** services/userService.js *)

Definition vip_only (contest : Contest) (r : Role) : bool :=
  bool_decide (ctype contest = VIP)
  && bool_decide (r <> vip) && bool_decide (r <> admin).

(** [joinContest]; [now] is the [new Date()] of the timing check and
    [createdAt] the [Date.now] default taken by [Participation.create]. *)
Definition joinContest (user : User) (id : nat) (now createdAt : Z)
  : Handler unit :=
  try_catch
    (contest ← Contest_findById id;
     match contest with
     | None => res_json 400 false ContestNotFound
     | Some contest =>
       if negb (isActive contest) then res_json 400 false ContestNotActive
       else if vip_only contest (role user)
       then res_json 400 false AccessDeniedVIP
       else
         existingParticipation ← Participation_findOne (user_id user) id;
         match existingParticipation with
         | Some _ => res_json 400 false AlreadyJoinedContest
         | None =>
           if now <? startTime contest
           then res_json 400 false ContestNotStarted
           else if now >? endTime contest
           then res_json 400 false ContestAlreadyEnded
           else if bool_decide (status contest <> ONGOING)
           then res_json 400 false ContestNotCurrentlyActive
           else if (maxParticipants contest <=? currentParticipants contest)%nat
           then res_json 400 false ContestIsFull
           else
             participation ← Participation_create (user_id user) id
                               (length (questions contest)) createdAt;
             Contest_save id
               (set_currentParticipants contest
                  (currentParticipants contest + 1)%nat);;
             res_json 201 true (JoinedContest participation)
         end
     end)
    internal_error.

(** The callback of [answers.forEach] in [submitContest].  Each
    [return res.status(400).json(...)] leaves the callback (the inner one
    leaves the inner callback), not [submitContest]. *)
Definition validateAnswer (contest : Contest) (answer : AnswerInput)
    (index : nat) : Handler unit :=
  match questions contest !! in_questionIndex answer with
  | None =>
      res_json 400 false (InvalidQuestionIndex (in_questionIndex answer))
  | Some question =>
      forEach
        (fun optionIndex _ =>
           if (optionIndex <? 0)%nat
              || (length (options question) <=? optionIndex)%nat
           then res_json 400 false (InvalidOptionIndex optionIndex (index + 1))
           else mret tt)
        (in_selectedOptions answer);;
      if bool_decide (qtype question = single_select)
         && negb (length (in_selectedOptions answer) =? 1)%nat
      then res_json 400 false (RequiresExactlyOneAnswer (index + 1))
      else if bool_decide (qtype question = true_false)
              && negb (length (in_selectedOptions answer) =? 1)%nat
      then res_json 400 false (RequiresExactlyOneAnswer (index + 1))
      else mret tt
  end.

(** [submitContest]; [now] is the [new Date()] of the timing check and
    [gradedAt] the one read inside [calculateScore].  The score is computed
    by [participation.calculateScore], that is over the answers stored in
    the participation document. *)
Definition submitContest (user : User) (id : nat)
    (answers : list AnswerInput) (now gradedAt : Z) : Handler unit :=
  try_catch
    (contest ← Contest_findById id;
     match contest with
     | None => res_json 400 false ContestNotFound
     | Some contest =>
       found ← Participation_findOne (user_id user) id;
       match found with
       | None => res_json 400 false MustJoinBeforeSubmitting
       | Some (i, participation) =>
         if isCompleted participation
         then res_json 400 false AlreadySubmitted
         else if now >? endTime contest
         then res_json 400 false ContestEndedCannotSubmit
         else if negb (length answers =? length (questions contest))%nat
         then res_json 400 false (MustAnswerAll (length (questions contest)))
         else
           forEach (validateAnswer contest) answers;;
           let '(graded, scoreResult) :=
             calculateScore participation (questions contest) gradedAt in
           let participation := calculateTimeSpent graded in
           Participation_save i participation;;
           res_json 200 true
             (AnswersSubmitted scoreResult (length (questions contest))
                (submittedAt participation) (timeSpent participation))
       end
     end)
    internal_error.

Definition is_completed_participation_of (uid cid : nat)
    (p : Participation) : Prop :=
  userId p = uid /\ contestId p = cid /\ isCompleted p = true.

#[global] Instance is_completed_participation_of_dec uid cid p :
  Decision (is_completed_participation_of uid cid p).
Proof. unfold is_completed_participation_of. apply _. Defined.

(** The rank of one identity, as [contestLeaderboard] computes it:
    [findOne] of the completed participation, then the count of the
    documents ahead of it, plus one. *)
Definition userRankOf (uid cid : nat) : Handler (option nat) :=
  fun w =>
    match list_find (is_completed_participation_of uid cid)
            (participations (store w)) with
    | None => (Normal None, w)
    | Some (_, userParticipation) =>
        (userRankResult ←
           Participation_countDocuments
             (fun p => completed_in cid p /\ strictly_ahead userParticipation p);
         mret (Some (userRankResult + 1)%nat)) w
    end.

(** [contestLeaderboard]; [user] is [req.user] of [optionalAuth].  The
    entries stand for the documents found; [populate] and the field
    projection of [select] are left out. *)
Definition contestLeaderboard (user : option User) (id : nat) : Handler unit :=
  try_catch
    (contest ← Contest_findById id;
     match contest with
     | None => res_json 400 false ContestNotFound
     | Some contest =>
       if bool_decide (ctype contest = VIP)
          && match user with
             | None => true
             | Some u => bool_decide (role u <> vip)
                         && bool_decide (role u <> admin)
             end
       then res_json 400 false AccessDeniedLeaderboard
       else
         found ← Participation_find (completed_in id);
         let leaderboard := assign_ranks (take 100 (mongo_sort found)) in
         userRank ← match user with
                    | None => mret None
                    | Some u => userRankOf (user_id u) id
                    end;
         res_json 200 true (Leaderboard leaderboard userRank)
     end)
    internal_error.

(** ** services/adminService.js *)

(** [parseInt(req.params.questionIndex)] *)
Inductive ParsedInt := NaN | Int (z : Z).

(** [questionIndex < 0 || questionIndex >= contest.questions.length];
    every comparison with [NaN] is false. *)
Definition index_out_of_range (questionIndex : ParsedInt) (len : nat) : bool :=
  match questionIndex with
  | NaN => false
  | Int z => (z <? 0) || (z >=? Z.of_nat len)
  end.

(** The element written by the handlers: [points: points || 1]. *)
Definition question_of_input (b : QuestionInput) : Question :=
  mkQuestion (in_questionText b) (in_type b) (in_options b)
    (if (in_points b =? 0)%nat then 1%nat else in_points b).

(** [addQuestion] *)
Definition addQuestion (id : nat) (b : QuestionInput) (now : Z)
  : Handler unit :=
  try_catch
    (contest ← Contest_findById id;
     match contest with
     | None => res_json 400 false ContestNotFound
     | Some contest =>
       if now >=? startTime contest
       then res_json 400 false CannotAddAfterStart
       else if bool_decide (in_type b = true_false)
               && negb (length (in_options b) =? 2)%nat
       then res_json 400 false TrueFalseNeedsTwoOptions
       else if bool_decide (in_type b = single_select)
               && negb (length (List.filter isCorrect (in_options b)) =? 1)%nat
       then res_json 400 false SingleSelectNeedsOneCorrect
       else if (length (List.filter isCorrect (in_options b)) =? 0)%nat
       then res_json 400 false NeedsOneCorrectOption
       else
         let contest :=
           set_questions contest (questions contest ++ [question_of_input b]) in
         Contest_save id contest;;
         res_json 201 true
           (QuestionAdded (last (questions contest))
              (length (questions contest)))
     end)
    internal_error.

(** [contest.questions[questionIndex] = {...}]; a [NaN] index names no
    element. *)
Definition assign_question (qs : list Question) (questionIndex : ParsedInt)
    (q : Question) : list Question :=
  match questionIndex with
  | NaN => qs
  | Int z => <[Z.to_nat z := q]> qs
  end.

Definition question_at (qs : list Question) (questionIndex : ParsedInt)
  : option Question :=
  match questionIndex with
  | NaN => None
  | Int z => qs !! Z.to_nat z
  end.

(** [editQuestion] *)
Definition editQuestion (id : nat) (questionIndex : ParsedInt)
    (b : QuestionInput) (now : Z) : Handler unit :=
  try_catch
    (contest ← Contest_findById id;
     match contest with
     | None => res_json 400 false ContestNotFound
     | Some contest =>
       if index_out_of_range questionIndex (length (questions contest))
       then res_json 400 false InvalidQuestionIndexParam
       else if now >=? startTime contest
       then res_json 400 false CannotUpdateAfterStart
       else
         let contest :=
           set_questions contest
             (assign_question (questions contest) questionIndex
                (question_of_input b)) in
         Contest_save id contest;;
         res_json 200 true
           (QuestionUpdated (question_at (questions contest) questionIndex))
     end)
    internal_error.

(** [contest.questions.splice(questionIndex, 1)]; [splice] reads a [NaN]
    start as 0. *)
Definition splice_one (qs : list Question) (questionIndex : ParsedInt)
  : list Question :=
  match questionIndex with
  | NaN => delete 0%nat qs
  | Int z => delete (Z.to_nat z) qs
  end.

(** [deleteQuestion] *)
Definition deleteQuestion (id : nat) (questionIndex : ParsedInt) (now : Z)
  : Handler unit :=
  try_catch
    (contest ← Contest_findById id;
     match contest with
     | None => res_json 400 false ContestNotFound
     | Some contest =>
       if index_out_of_range questionIndex (length (questions contest))
       then res_json 400 false InvalidQuestionIndexParam
       else if now >=? startTime contest
       then res_json 400 false CannotDeleteAfterStart
       else
         let contest :=
           set_questions contest (splice_one (questions contest) questionIndex) in
         Contest_save id contest;;
         res_json 200 true (QuestionDeleted (length (questions contest)))
     end)
    internal_error.

(** [getLeaderboard] of the administrator. *)
Definition getLeaderboard (id : nat) : Handler unit :=
  try_catch
    (contest ← Contest_findById id;
     match contest with
     | None => res_json 400 false ContestNotFound
     | Some contest =>
       found ← Participation_find (in_contest id);
       let leaderboard := assign_ranks (mongo_sort found) in
       res_json 200 true (AdminLeaderboard leaderboard)
     end)
    internal_error.

(** ** Vocabulary of the statements *)

(** An answer is graded when its [questionIndex] names a question. *)
Definition answered (contestQuestions : list Question) (a : Answer) : Prop :=
  is_Some (contestQuestions !! questionIndex a).

#[global] Instance answered_dec contestQuestions a :
  Decision (answered contestQuestions a).
Proof. unfold answered. apply _. Defined.

(** The per-answer structural rules of a submission: the question exists,
    every selected option is one of its options, and a single-select or
    true-false answer selects exactly one. *)
Definition answer_well_formed (contest : Contest) (a : AnswerInput) : Prop :=
  exists question,
    questions contest !! in_questionIndex a = Some question
    /\ Forall (fun optionIndex => (optionIndex < length (options question))%nat)
         (in_selectedOptions a)
    /\ (qtype question <> multi_select ->
        length (in_selectedOptions a) = 1%nat).

(** The unique compound index of the participation schema:
    [index({userId: 1, contestId: 1}, {unique: true})]. *)
Definition unique_index (l : list Participation) : Prop :=
  NoDup ((fun p => (userId p, contestId p)) <$> l).

(** The number of participations of contest [cid]. *)
Definition participant_count (cid : nat) (l : list Participation) : nat :=
  length (filter (in_contest cid) l).

(** The stored contests pass their own pre-save hook, and each counter
    equals the number of participations of its contest, within capacity. *)
Definition counters_consistent (s : Store) : Prop :=
  forall id c, contests s !! id = Some c ->
    presave_ok c = true
    /\ currentParticipants c = participant_count id (participations s)
    /\ (currentParticipants c <= maxParticipants c)%nat.

(** One join request: who, which contest, and the two clock readings. *)
Record JoinRequest := mkJoinRequest {
  jr_user : User;
  jr_contest : nat;
  jr_now : Z;
  jr_createdAt : Z
}.

(** Requests served one after the other. *)
Fixpoint joins (reqs : list JoinRequest) (s : Store) : Store :=
  match reqs with
  | [] => s
  | r :: rest =>
      joins rest
        (final (run (joinContest (jr_user r) (jr_contest r) (jr_now r)
                       (jr_createdAt r)) s))
  end.

(** The three question routes of [routes/admin.js]. *)
Inductive QuestionRequest :=
  | AddQuestion (b : QuestionInput)
  | EditQuestion (questionIndex : ParsedInt) (b : QuestionInput)
  | DeleteQuestion (questionIndex : ParsedInt).

Definition question_route (req : QuestionRequest) (id : nat) (now : Z)
  : Handler unit :=
  match req with
  | AddQuestion b => addQuestion id b now
  | EditQuestion questionIndex b => editQuestion id questionIndex b now
  | DeleteQuestion questionIndex => deleteQuestion id questionIndex now
  end.

(** A 400 reply with [success: false]. *)
Definition is_rejection (r : Reply) : Prop :=
  statusCode r = 400%nat /\ success r = false.

(** Who may see a leaderboard: any caller for a NORMAL contest, a [vip] or
    [admin] identity for a VIP one. *)
Definition may_view (contest : Contest) (user : option User) : Prop :=
  ctype contest = VIP ->
  exists u, user = Some u /\ (role u = vip \/ role u = admin).

(** The rank [contestLeaderboard] reports for [req.user]. *)
Definition reported_rank (s : Store) (user : option User) (id : nat)
  : option nat :=
  match user with
  | None => None
  | Some u =>
      match list_find (is_completed_participation_of (user_id u) id)
              (participations s) with
      | None => None
      | Some (_, userParticipation) =>
          Some (length (filter (fun p => completed_in id p
                                         /\ strictly_ahead userParticipation p)
                          (participations s)) + 1)%nat
      end
  end.

(** ** Proof tactics for handlers *)

(** Unfolding of the handler monad, for the proofs below. *)
Ltac unfold_handler :=
  unfold run, try_catch, internal_error, res_json, Contest_findById,
    Contest_save, Participation_findOne, Participation_create,
    Participation_save, Participation_find, Participation_countDocuments,
    mbind, mret, Handler_bind, Handler_ret; cbn [store sent contests participations].

Ltac handler_step :=
  cbv zeta; cbn beta iota delta [store sent contests participations].

(** ** Sample data *)

(** A multi-select question whose correct options are 0 and 2. *)
Definition q_demo : Question :=
  mkQuestion "Which of these are prime?" multi_select
    [mkOpt "2" true; mkOpt "4" false; mkOpt "5" true] 3.

(** The only question of the sample contest. *)
Definition quiz_question : Question :=
  mkQuestion "Capital of France?" single_select
    [mkOpt "Paris" true; mkOpt "Rome" false] 2.

(** A one-question contest with a single seat, open from 100 to 200. *)
Definition quiz : Contest :=
  mkContest "Quiz" "General knowledge" NORMAL 100 200 "A cup" ONGOING
    [quiz_question] 1 0 true.

Definition alice : User := mkUser 1 normal.
Definition bob : User := mkUser 2 normal.

(** A store holding the one contest [quiz] under id 7, nobody joined. *)
Definition quiz_store : Store := mkStore {[ 7%nat := quiz ]} [].

(** The store after alice has taken the only seat of [quiz]. *)
Definition quiz_store_full : Store :=
  final (run (joinContest alice 7 150 150) quiz_store).

(** The store after alice, seated in [quiz], has handed in a well-formed
    answer sheet. *)
Definition quiz_store_done : Store :=
  final (run (submitContest alice 7 [mkAnswerInput 0 [0%nat]] 160 161)
           quiz_store_full).

(** A question an administrator tries to add. *)
Definition new_question : QuestionInput :=
  mkQuestionInput "Largest planet of the solar system?" single_select
    [mkOpt "Jupiter" true; mkOpt "Mars" false] 1.

(** [quiz] raised to three seats, two of them taken. *)
Definition quiz3 : Contest :=
  mkContest "Quiz" "General knowledge" NORMAL 100 200 "A cup" ONGOING
    [quiz_question] 3 2 true.

(** Alice has submitted; bob has joined and not submitted. *)
Definition board_store : Store :=
  mkStore {[ 7%nat := quiz3 ]}
    [mkParticipation 1 7 150 (Some 161) [] 0 1 0 0 None true 0;
     mkParticipation 2 7 152 None [] 0 1 0 0 None false 0].

(** Three finished participations of one contest: scores 50, 80, 50; the
    first 50 was handed in after the second. *)
Definition ranked_store : Store :=
  mkStore {[ 7%nat := quiz3 ]}
    [mkParticipation 1 7 150 (Some 170) [] 50 1 1 0 None true 20;
     mkParticipation 2 7 150 (Some 160) [] 80 1 1 0 None true 10;
     mkParticipation 3 7 150 (Some 160) [] 50 1 1 0 None true 10].

(** ** More of models/Contest.js *)

(** The virtual [isCurrentlyActive]. *)
Definition isCurrentlyActive (this : Contest) (now : Z) : bool :=
  (now >=? startTime this) && (now <=? endTime this)
  && bool_decide (status this = ONGOING).



(** ** More of services/userService.js *)






(** [contestData.participation] of [contestById]. *)
Inductive ParticipationInfo :=
  | HasJoined (joinedAt : Z) (submittedAt : option Z) (isCompleted : bool)
      (score : nat) (rank : option nat) (answers : list Answer)
  | NotJoined (canJoin : bool).

(** [contestData] of [contestById] ([createdAt] left out). *)
Record ContestData := mkContestData {
  cd_id : nat;
  cd_name : string;
  cd_description : string;
  cd_type : ContestType;
  cd_startTime : Z;
  cd_endTime : Z;
  cd_prizeInfo : string;
  cd_status : Status;
  cd_maxParticipants : nat;
  cd_currentParticipants : nat;
  cd_questions : option (list Question);
  cd_totalQuestions : option nat;
  cd_participation : ParticipationInfo
}.

(** The replies of [contestById]: three 400s and the 200 with the data. *)
Inductive DetailReply :=
  | DetailNotFound          (* 400 "Contest not found" *)
  | DetailNotActive         (* 400 "Contest is not active" *)
  | DetailAccessDenied      (* 400 "Access denied. VIP contests are only available to VIP users" *)
  | Detail (contestData : ContestData).   (* 200 *)

(** [contestById]; it only reads, and every path sends one reply. *)
Definition contestById (user : option User) (id : nat) (now : Z) (s : Store)
  : DetailReply :=
  match contests s !! id with
  | None => DetailNotFound
  | Some contest =>
    if negb (isActive contest) then DetailNotActive
    else if bool_decide (ctype contest = VIP)
            && match user with
               | None => true
               | Some u => bool_decide (role u <> vip)
                           && bool_decide (role u <> admin)
               end
    then DetailAccessDenied
    else
      let participation :=
        match user with
        | None => None
        | Some u =>
            snd <$> list_find (is_participation_of (user_id u) id)
                      (participations s)
        end in
      let shown := bool_decide (is_Some participation) || (now >? endTime contest) in
      Detail
        (mkContestData id (name contest) (description contest) (ctype contest)
           (startTime contest) (endTime contest) (prizeInfo contest)
           (status contest) (maxParticipants contest)
           (currentParticipants contest)
           (if shown then Some (questions contest) else None)
           (if shown then Some (length (questions contest)) else None)
           (match participation with
            | Some p =>
                HasJoined (joinedAt p) (submittedAt p) (isCompleted p)
                  (score p) (rank p) (answers p)
            | None =>
                NotJoined ((now >=? startTime contest)
                           && (now <=? endTime contest)
                           && bool_decide (status contest = ONGOING))
            end))
  end.

(** ** More of services/adminService.js *)

(** The bodies the remaining administrator handlers send. *)
Inductive AdminMessage :=
  | AdminContestNotFound          (* "Contest not found" *)
  | CannotDeleteWithParticipants  (* "Cannot delete contest with existing participants" *)
  | ContestDeleted                (* "Contest deleted successfully" *)
  | InvalidStatus                 (* "Invalid status. Must be UPCOMING, ONGOING, or ENDED" *)
  | StatusUpdated (contest : Contest)
                                  (* "Contest status updated successfully" *)
  | CannotUpdateStartedContest    (* "Cannot update contest after it has started" *)
  | ContestUpdated (contest : Contest)
                                  (* "Contest updated successfully" *)
  | AdminInternalServerError.     (* "Internal Server Error" *)

Record AdminReply := mkAdminReply {
  admin_statusCode : nat;
  admin_success : bool;
  admin_body : AdminMessage
}.

(** [deleteContest]: reply and store after. *)
Definition deleteContest (id : nat) (s : Store) : AdminReply * Store :=
  match contests s !! id with
  | None => (mkAdminReply 400 false AdminContestNotFound, s)
  | Some contest =>
      let participationCount :=
        length (filter (in_contest id) (participations s)) in
      if (0 <? participationCount)%nat
      then (mkAdminReply 400 false CannotDeleteWithParticipants, s)
      else (mkAdminReply 200 true ContestDeleted,
            mkStore (delete id (contests s)) (participations s))
  end.

(** [validStatuses.includes(status)], with the status it names. *)
Definition status_of_name (v : string) : option Status :=
  if String.eqb v "UPCOMING" then Some UPCOMING
  else if String.eqb v "ONGOING" then Some ONGOING
  else if String.eqb v "ENDED" then Some ENDED
  else None.

(** [changeStatus]; the body is checked before the contest is looked up,
    and [contest.save()] runs the pre-save hook. *)
Definition changeStatus (id : nat) (status : string) (s : Store)
  : AdminReply * Store :=
  match status_of_name status with
  | None => (mkAdminReply 400 false InvalidStatus, s)
  | Some st =>
      match contests s !! id with
      | None => (mkAdminReply 400 false AdminContestNotFound, s)
      | Some contest =>
          let contest := set_status contest st in
          if presave_ok contest
          then (mkAdminReply 200 true (StatusUpdated contest),
                mkStore (<[id := contest]> (contests s)) (participations s))
          else (mkAdminReply 200 false AdminInternalServerError, s)
      end
  end.

(** [req.body] of [updateContest] after the Joi schema [updateContest]:
    every field optional. *)
Record UpdateInput := mkUpdateInput {
  up_name : option string;
  up_description : option string;
  up_type : option ContestType;
  up_startTime : option Z;
  up_endTime : option Z;
  up_prizeInfo : option string;
  up_maxParticipants : option nat
}.

(** [Object.assign(contest, updates)] for the fields present. *)
Definition assign_fields (contest : Contest) (b : UpdateInput) : Contest :=
  mkContest
    (default (name contest) (up_name b))
    (default (description contest) (up_description b))
    (default (ctype contest) (up_type b))
    (default (startTime contest) (up_startTime b))
    (default (endTime contest) (up_endTime b))
    (default (prizeInfo contest) (up_prizeInfo b))
    (status contest) (questions contest)
    (default (maxParticipants contest) (up_maxParticipants b))
    (currentParticipants contest) (isActive contest).

(** The [allowedUpdates] of a started contest:
    [description], [prizeInfo], [maxParticipants]. *)
Definition allowed_only (b : UpdateInput) : UpdateInput :=
  mkUpdateInput None (up_description b) None None None (up_prizeInfo b)
    (up_maxParticipants b).

(** [Object.keys(updates).length === 0] *)
Definition no_allowed_field (b : UpdateInput) : bool :=
  negb (bool_decide (is_Some (up_description b)))
  && negb (bool_decide (is_Some (up_prizeInfo b)))
  && negb (bool_decide (is_Some (up_maxParticipants b))).

(** [updateContest].  [validators_pass] is the verdict of the schema's
    field validators on [save], given the document as loaded and as
    assigned; which of them Mongoose runs depends on the paths it finds
    modified, so the handler is modelled for any such verdict. *)
Definition updateContest (validators_pass : Contest -> Contest -> bool)
    (id : nat) (b : UpdateInput) (now : Z) (s : Store)
  : AdminReply * Store :=
  match contests s !! id with
  | None => (mkAdminReply 400 false AdminContestNotFound, s)
  | Some contest =>
      if (now >=? startTime contest) && no_allowed_field b
      then (mkAdminReply 400 false CannotUpdateStartedContest, s)
      else
        let updated :=
          if now >=? startTime contest
          then assign_fields contest (allowed_only b)
          else assign_fields contest b in
        if validators_pass contest updated && presave_ok updated
        then (mkAdminReply 200 true (ContestUpdated updated),
              mkStore (<[id := updated]> (contests s)) (participations s))
        else (mkAdminReply 200 false AdminInternalServerError, s)
  end.

(** ** Requests to the store, served in sequence *)

(** The requests that write: the participant's two and the
    administrator's on questions, status and deletion. *)
Inductive Request :=
  | Join (user : User) (id : nat) (now createdAt : Z)
  | Submit (user : User) (id : nat) (answers : list AnswerInput)
      (now gradedAt : Z)
  | Questions (req : QuestionRequest) (id : nat) (now : Z)
  | ChangeStatus (id : nat) (status : string)
  | DeleteContest (id : nat).

Definition serve (r : Request) (s : Store) : Store :=
  match r with
  | Join user id now createdAt =>
      final (run (joinContest user id now createdAt) s)
  | Submit user id answers now gradedAt =>
      final (run (submitContest user id answers now gradedAt) s)
  | Questions req id now => final (run (question_route req id now) s)
  | ChangeStatus id status => (changeStatus id status s).2
  | DeleteContest id => (deleteContest id s).2
  end.

Fixpoint serve_all (rs : list Request) (s : Store) : Store :=
  match rs with
  | [] => s
  | r :: rest => serve_all rest (serve r s)
  end.

(** Every participation belongs to a stored contest. *)
Definition referential_integrity (s : Store) : Prop :=
  forall p, p ∈ participations s -> is_Some (contests s !! contestId p).

(** Two participations that tie exactly in the ranking order. *)
Definition exact_tie (p q : Participation) : Prop :=
  score p = score q /\ submittedAt p = submittedAt q.

(** ** More vocabulary *)

(** An answer that was graded and found correct. *)
Definition graded_correct (contestQuestions : list Question) (a : Answer)
  : Prop :=
  answered contestQuestions a /\ answerIsCorrect a = true.

(** An answer that was graded and found wrong. *)
Definition graded_wrong (contestQuestions : list Question) (a : Answer)
  : Prop :=
  answered contestQuestions a /\ answerIsCorrect a = false.

(** The writes a request can make, as steps from one store to the next. *)
Inductive transition (s : Store) : Store -> Prop :=
  | same_store : transition s s
  | contest_saved id c c' :
      contests s !! id = Some c ->
      presave_ok c' = true ->
      currentParticipants c' = currentParticipants c ->
      maxParticipants c' = maxParticipants c ->
      transition s (mkStore (<[id := c']> (contests s)) (participations s))
  | seat_taken uid id c total createdAt :
      contests s !! id = Some c ->
      list_find (is_participation_of uid id) (participations s) = None ->
      (currentParticipants c < maxParticipants c)%nat ->
      presave_ok c = true ->
      transition s
        (mkStore
           (<[id := set_currentParticipants c (currentParticipants c + 1)%nat]>
              (contests s))
           (participations s ++ [new_participation uid id total createdAt]))
  | seat_uncounted uid id c total createdAt :
      contests s !! id = Some c ->
      list_find (is_participation_of uid id) (participations s) = None ->
      presave_ok c = false ->
      transition s
        (mkStore (contests s)
           (participations s ++ [new_participation uid id total createdAt]))
  | participation_graded i p p' :
      participations s !! i = Some p ->
      userId p' = userId p ->
      contestId p' = contestId p ->
      transition s (mkStore (contests s) (<[i := p']> (participations s)))
  | contest_deleted id :
      participant_count id (participations s) = 0%nat ->
      transition s (mkStore (delete id (contests s)) (participations s)).

(** ** More sample data *)

(** [quiz] with a second question, and alice seated in it. *)
Definition quiz_two : Contest :=
  mkContest "Quiz" "General knowledge" NORMAL 100 200 "A cup" ONGOING
    [quiz_question; q_demo] 5 1 true.

Definition quiz_two_store : Store :=
  mkStore {[ 7%nat := quiz_two ]}
    [mkParticipation 1 7 150 None [] 0 2 0 0 None false 0].

(** Two finished participations that tie in score and submitted-at. *)
Definition tied_store : Store :=
  mkStore {[ 7%nat := quiz3 ]}
    [mkParticipation 1 7 150 (Some 160) [] 50 1 1 0 None true 10;
     mkParticipation 2 7 150 (Some 160) [] 50 1 1 0 None true 10].

(** A day of requests on [quiz]: a question is refused (the contest is
    open), alice joins and submits, bob finds the contest full, the
    administrator closes it and fails to delete it. *)
Definition busy_day : list Request :=
  [Questions (AddQuestion new_question) 7 150;
   Join alice 7 150 150;
   Submit alice 7 [mkAnswerInput 0 [0%nat]] 160 161;
   Join bob 7 170 170;
   ChangeStatus 7 "ENDED";
   DeleteContest 7].

(** [quiz] before it opens, with no participant. *)
Definition draft_store : Store := mkStore {[ 7%nat := set_status quiz UPCOMING ]} [].

(** [quiz3] with both of its taken seats. *)
Definition two_seated_store : Store :=
  mkStore {[ 7%nat := quiz3 ]}
    [mkParticipation 1 7 150 None [] 0 1 0 0 None false 0;
     mkParticipation 2 7 152 None [] 0 1 0 0 None false 0].

(** * Properties *)

(** ** The default sort order is a total order on indices *)

Lemma ascii_compare_lt a b :
  Ascii.compare a b = Lt <-> (Ascii.N_of_ascii a < Ascii.N_of_ascii b)%N.
Proof. unfold Ascii.compare. apply N.compare_lt_iff. Qed.

Lemma string_leb_trans (s1 s2 s3 : string) :
  String.leb s1 s2 = true -> String.leb s2 s3 = true -> String.leb s1 s3 = true.
Proof.
  unfold String.leb. revert s2 s3.
  induction s1 as [|a s1 IH]; intros [|b s2] [|c s3]; simpl; try done.
  destruct (Ascii.compare a b) eqn:Hab, (Ascii.compare b c) eqn:Hbc;
    try done; intros H1 H2.
  - apply Ascii.compare_eq_iff in Hab, Hbc. subst.
    assert (Ascii.compare c c = Eq) as ->
      by (unfold Ascii.compare; apply N.compare_refl).
    by eapply IH.
  - apply Ascii.compare_eq_iff in Hab. subst. by rewrite Hbc.
  - apply Ascii.compare_eq_iff in Hbc. subst. by rewrite Hab.
  - apply ascii_compare_lt in Hab, Hbc.
    assert (Ascii.compare a c = Lt) as -> by (apply ascii_compare_lt; eapply N.lt_trans; eassumption).
    done.
Qed.

#[global] Instance js_default_le_trans : Transitive js_default_le.
Proof. intros x y z. unfold js_default_le. apply string_leb_trans. Qed.

#[global] Instance js_default_le_total : Total js_default_le.
Proof. intros x y. unfold js_default_le. apply String.leb_total. Qed.

#[global] Instance js_default_le_antisymm : AntiSymm (=) js_default_le.
Proof.
  intros x y Hxy Hyx. unfold js_default_le in *.
  apply (inj pretty). by apply String.leb_antisym.
Qed.

Lemma js_sort_Permutation l : js_sort l ≡ₚ l.
Proof. apply merge_sort_Permutation. Qed.

Lemma js_sort_canonical l1 l2 : l1 ≡ₚ l2 -> js_sort l1 = js_sort l2.
Proof.
  intros Hp. apply (StronglySorted_unique js_default_le).
  - apply StronglySorted_merge_sort; apply _.
  - apply StronglySorted_merge_sort; apply _.
  - by rewrite !js_sort_Permutation.
Qed.

Lemma js_sort_eq_iff l1 l2 : js_sort l1 = js_sort l2 <-> l1 ≡ₚ l2.
Proof.
  split; [|apply js_sort_canonical].
  intros Heq. rewrite <- (js_sort_Permutation l1), Heq.
  apply js_sort_Permutation.
Qed.

Lemma every_from_lookup (l2 l1 : list nat) i :
  every_from (fun option index => bool_decide (l2 !! index = Some option)) i l1 = true
  <-> forall j x, l1 !! j = Some x -> l2 !! (i + j)%nat = Some x.
Proof.
  revert i. induction l1 as [|a l1 IH]; intros i; simpl.
  - split; [intros _ j x Hj; by rewrite lookup_nil in Hj | done].
  - rewrite andb_true_iff, bool_decide_eq_true, IH. split.
    + intros [H0 Hs] [|j] x Hj; simpl in Hj.
      * injection Hj as <-. by rewrite Nat.add_0_r.
      * replace (i + S j)%nat with (S i + j)%nat by lia. by apply Hs.
    + intros Hall. split.
      * rewrite <- (Nat.add_0_r i). by apply Hall.
      * intros j x Hj. replace (S i + j)%nat with (i + S j)%nat by lia.
        by apply Hall.
Qed.

Lemma length_and_every_eq (l1 l2 : list nat) :
  (length l1 =? length l2)%nat
  && every (fun option index => bool_decide (l2 !! index = Some option)) l1 = true
  <-> l1 = l2.
Proof.
  unfold every. rewrite andb_true_iff, Nat.eqb_eq, every_from_lookup. split.
  - intros [Hlen Hall]. apply list_eq. intros j.
    destruct (l1 !! j) as [x|] eqn:Hj.
    + symmetry. by apply (Hall j x).
    + symmetry. apply lookup_ge_None. apply lookup_ge_None in Hj. lia.
  - intros ->. split; [done|]. by intros j x Hj.
Qed.

Lemma multiSelectIsCorrect_Permutation question selected :
  (multiSelectIsCorrect question selected).2 = true
  <-> selected ≡ₚ correctOptions question.
Proof.
  unfold multiSelectIsCorrect. simpl.
  rewrite length_and_every_eq. apply js_sort_eq_iff.
Qed.

(** ** Grading *)

Lemma elem_of_correctOptions question i :
  i ∈ correctOptions question <-> is_correct_index question i.
Proof.
  unfold correctOptions, is_correct_index.
  rewrite list_elem_of_fmap. split.
  - intros ([j b] & -> & Hin). apply list_elem_of_filter in Hin as [Hb Hin].
    apply elem_of_lookup_imap in Hin as (k & o & Heq & Hk).
    simpl in *. injection Heq as -> ->. by rewrite Hk, <- Hb.
  - destruct (options question !! i) as [o|] eqn:Hi; [|done].
    simpl. intros [= Ho]. exists (i, true). split; [done|].
    apply list_elem_of_filter. split; [done|].
    apply elem_of_lookup_imap. exists i, o. by rewrite Ho.
Qed.

Lemma NoDup_correctOptions question : NoDup (correctOptions question).
Proof.
  unfold correctOptions.
  set (l := imap _ (options question)).
  assert (NoDup ((fun o : nat * bool => o.1) <$> l)) as Hnd.
  { unfold l. rewrite fmap_imap.
    rewrite (imap_ext _ (fun j _ => j)) by done.
    rewrite (imap_seq_0 (options question) (fun j => j)).
    rewrite list_fmap_id. apply NoDup_seq. }
  apply NoDup_fmap_2_strong.
  - intros [i b] [j b'] Hi Hj Hij. simpl in Hij. subst j.
    apply list_elem_of_filter in Hi as [Hb _], Hj as [Hb' _].
    simpl in *. by subst.
  - apply NoDup_filter. by apply NoDup_fmap_1 in Hnd.
Qed.

(** For a selection without repeats, being a rearrangement of the correct
    indices is the same as selecting exactly the correct set. *)
Lemma Permutation_correctOptions_set question selected :
  NoDup selected ->
  (selected ≡ₚ correctOptions question
   <-> forall i, i ∈ selected <-> is_correct_index question i).
Proof.
  intros Hnd. split.
  - intros Hp i. by rewrite Hp, elem_of_correctOptions.
  - intros Hset. apply NoDup_Permutation; [done|apply NoDup_correctOptions|].
    intros i. by rewrite Hset, elem_of_correctOptions.
Qed.

Lemma multiSelectIsCorrect_order question selected1 selected2 :
  selected1 ≡ₚ selected2 ->
  multiSelectIsCorrect question selected1 = multiSelectIsCorrect question selected2.
Proof.
  intros Hp. unfold multiSelectIsCorrect.
  by rewrite (js_sort_canonical _ _ Hp).
Qed.

Lemma gradeAnswer_multi_select contestQuestions t answer question :
  contestQuestions !! questionIndex answer = Some question ->
  qtype question = multi_select ->
  gradeAnswer contestQuestions t answer =
    let r := multiSelectIsCorrect question (selectedOptions answer) in
    let earned := if r.2 then points question else 0%nat in
    (mkTally (totalScore t + earned)
       (if r.2 then S (correctCount t) else correctCount t)
       (if r.2 then wrongCount t else S (wrongCount t)),
     mkAnswer (questionIndex answer) r.1 r.2 earned).
Proof.
  intros Hq Hty. unfold gradeAnswer. rewrite Hq, Hty.
  by destruct (multiSelectIsCorrect question (selectedOptions answer)).
Qed.

Example js_sort_demo : js_sort [10; 9; 1]%nat = [1; 10; 9]%nat.
Proof. vm_compute. reflexivity. Qed.

Example multi_select_demo :
  multiSelectIsCorrect q_demo [2; 0]%nat = ([0; 2]%nat, true).
Proof. vm_compute. reflexivity. Qed.

(** C2 (as amended).  For a multi-select question, [calculateScore] marks
    an answer correct exactly when the selected indices hold no repeated
    entry and, as a set, are the option indices whose correctness flag is
    true; extra or missing selections make it incorrect.  The answer earns
    [question.points] when correct and 0 otherwise, and rearranging the
    selection changes nothing in the outcome. *)
Theorem multi_select_grading contestQuestions t answer question :
  contestQuestions !! questionIndex answer = Some question ->
  qtype question = multi_select ->
  let graded := (gradeAnswer contestQuestions t answer).2 in
  (answerIsCorrect graded = true
   <-> NoDup (selectedOptions answer)
       /\ forall i, i ∈ selectedOptions answer <-> is_correct_index question i)
  /\ pointsEarned graded
     = (if answerIsCorrect graded then points question else 0%nat)
  /\ forall answer',
       questionIndex answer' = questionIndex answer ->
       selectedOptions answer' ≡ₚ selectedOptions answer ->
       gradeAnswer contestQuestions t answer'
       = gradeAnswer contestQuestions t answer.
Proof.
  intros Hq Hty graded. subst graded.
  rewrite (gradeAnswer_multi_select _ _ _ _ Hq Hty).
  cbv zeta. cbn [snd answerIsCorrect pointsEarned].
  split; [|split].
  - rewrite multiSelectIsCorrect_Permutation. split.
    + intros Hp. assert (NoDup (selectedOptions answer)) as Hnd.
      { rewrite Hp. apply NoDup_correctOptions. }
      split; [done|]. by apply Permutation_correctOptions_set.
    + intros [Hnd Hset]. by apply Permutation_correctOptions_set.
  - done.
  - intros answer' Hidx Hp.
    assert (contestQuestions !! questionIndex answer' = Some question) as Hq'
      by (by rewrite Hidx).
    rewrite (gradeAnswer_multi_select _ _ _ _ Hq' Hty). cbv zeta.
    by rewrite (multiSelectIsCorrect_order _ _ _ Hp), Hidx.
Qed.

Lemma multi_select_grading_witness :
  let answer := mkAnswer 0 [2; 0]%nat false 0 in
  let graded := (gradeAnswer [q_demo] (mkTally 0 0 0) answer).2 in
  [q_demo] !! questionIndex answer = Some q_demo
  /\ qtype q_demo = multi_select
  /\ (answerIsCorrect graded = true
      <-> NoDup (selectedOptions answer)
          /\ forall i, i ∈ selectedOptions answer <-> is_correct_index q_demo i)
  /\ gradeAnswer [q_demo] (mkTally 0 0 0) (mkAnswer 0 [0; 2]%nat false 0)
     = gradeAnswer [q_demo] (mkTally 0 0 0) answer.
Proof.
  intros answer graded.
  destruct (multi_select_grading [q_demo] (mkTally 0 0 0) answer q_demo
              eq_refl eq_refl) as (Hiff & _ & Horder).
  split; [reflexivity|]. split; [reflexivity|]. split; [exact Hiff|].
  apply Horder; [reflexivity|].
  apply Permutation_swap.
Defined.

(** C2, the claim as first stated, fails on a selection that repeats an
    index: [0, 0, 2] has the same set of indices as the correct options
    {0, 2} of [q_demo], yet it is graded incorrect and earns nothing. *)
Lemma multi_select_repeated_index_counterexample :
  let answer := mkAnswer 0 [0; 0; 2]%nat false 0 in
  let graded := (gradeAnswer [q_demo] (mkTally 0 0 0) answer).2 in
  (forall i, i ∈ selectedOptions answer <-> is_correct_index q_demo i)
  /\ answerIsCorrect graded = false
  /\ pointsEarned graded = 0%nat.
Proof.
  simpl. split; [|by vm_compute].
  intros i. unfold is_correct_index. simpl. split.
  - intros Hin. repeat
      (apply elem_of_cons in Hin as [->|Hin]; [reflexivity|]).
    by apply elem_of_nil in Hin.
  - destruct i as [|[|[|i]]]; simpl; intros Hi; try discriminate;
      repeat constructor.
Qed.

Lemma gradeAnswer_skip contestQuestions t a :
  contestQuestions !! questionIndex a = None ->
  gradeAnswer contestQuestions t a = (t, a).
Proof. intros Hq. unfold gradeAnswer. by rewrite Hq. Qed.

Lemma gradeAnswer_questionIndex contestQuestions t a :
  questionIndex (gradeAnswer contestQuestions t a).2 = questionIndex a.
Proof.
  unfold gradeAnswer. destruct (contestQuestions !! questionIndex a); [|done].
  by destruct (match qtype q with single_select => _ | _ => _ end).
Qed.

Lemma gradeAnswer_counted contestQuestions t a :
  answered contestQuestions a ->
  let r := gradeAnswer contestQuestions t a in
  (correctCount r.1 + wrongCount r.1 = S (correctCount t + wrongCount t))%nat
  /\ (totalScore r.1 = totalScore t + pointsEarned r.2)%nat.
Proof.
  intros [q Hq]. unfold gradeAnswer. rewrite Hq.
  destruct (match qtype q with single_select => _ | _ => _ end) as [sel [|]];
    simpl; lia.
Qed.

Lemma gradeAnswers_tally contestQuestions l t :
  let r := gradeAnswers contestQuestions t l in
  (correctCount r.1 + wrongCount r.1
   = correctCount t + wrongCount t
     + length (filter (answered contestQuestions) l))%nat
  /\ (totalScore r.1
      = totalScore t
        + sum_list (pointsEarned <$> filter (answered contestQuestions) r.2))%nat
  /\ length r.2 = length l
  /\ forall i a, l !! i = Some a ->
       contestQuestions !! questionIndex a = None -> r.2 !! i = Some a.
Proof.
  revert t. induction l as [|a l IH]; intros t; simpl.
  - repeat split; try lia. intros i a Hi. by rewrite lookup_nil in Hi.
  - pose proof (gradeAnswer_questionIndex contestQuestions t a) as Hidx.
    pose proof (gradeAnswer_counted contestQuestions t a) as Hcnt.
    pose proof (gradeAnswer_skip contestQuestions t a) as Hskip.
    destruct (gradeAnswer contestQuestions t a) as [t1 a1] eqn:Ha.
    specialize (IH t1).
    destruct (gradeAnswers contestQuestions t1 l) as [t2 l2] eqn:Hl.
    simpl in *. destruct IH as (IHc & IHs & IHl & IHk).
    rewrite !filter_cons.
    assert (answered contestQuestions a1 <-> answered contestQuestions a) as Hiff
      by (unfold answered; by rewrite Hidx).
    destruct (decide (answered contestQuestions a)) as [Hin|Hout].
    + rewrite decide_True by (by apply Hiff).
      destruct (Hcnt Hin) as [Hc Hs]. simpl. unfold fmap in *.
      split; [lia|]. split; [lia|]. split; [lia|].
      intros [|i] b Hi Hb; simpl in *.
      * injection Hi as ->. destruct Hin as [q Hq]. congruence.
      * by apply IHk.
    + rewrite decide_False by (by rewrite Hiff).
      assert (contestQuestions !! questionIndex a = None) as Hnone.
      { unfold answered in Hout. by apply eq_None_not_Some. }
      specialize (Hskip Hnone). injection Hskip as -> ->.
      split; [lia|]. split; [lia|]. split; [simpl; lia|].
      intros [|i] b Hi Hb; simpl in *; [done|by apply IHk].
Qed.

(** C10.  [calculateScore] is defined on every answer list.  An answer whose
    [questionIndex] names no question of the contest is skipped: it is
    left as it was, earns nothing, and is counted neither correct nor
    wrong.  Hence [correctAnswers + wrongAnswers] is the number of answers
    whose [questionIndex] is in range, and the score is the sum of the
    points earned by those; the sum of the two counts can stay below
    [totalQuestions]. *)
Theorem calculateScore_skips_unknown_questions :
  (forall this contestQuestions now,
     let p := (calculateScore this contestQuestions now).1 in
     (correctAnswers p + wrongAnswers p
      = length (filter (answered contestQuestions) (answers this)))%nat
     /\ score p
        = sum_list (pointsEarned <$> filter (answered contestQuestions) (answers p))
     /\ length (answers p) = length (answers this)
     /\ (forall i a, answers this !! i = Some a ->
           contestQuestions !! questionIndex a = None ->
           answers p !! i = Some a)
     /\ isCompleted p = true /\ submittedAt p = Some now)
  /\ exists this contestQuestions now,
       let p := (calculateScore this contestQuestions now).1 in
       (correctAnswers p + wrongAnswers p < totalQuestions p)%nat.
Proof.
  split.
  - intros this contestQuestions now. unfold calculateScore.
    pose proof (gradeAnswers_tally contestQuestions (answers this)
                  (mkTally 0 0 0)) as H.
    destruct (gradeAnswers contestQuestions (mkTally 0 0 0) (answers this))
      as [t graded].
    cbv zeta in H. cbn [fst snd] in H. destruct H as (Hc & Hs & Hl & Hk).
    cbn [fst correctAnswers wrongAnswers score answers isCompleted submittedAt].
    repeat split; done.
  - exists (mkParticipation 1 7 0 None [mkAnswer 5 [0%nat] false 0]
              0 1 0 0 None false 0), [q_demo], 10.
    vm_compute. lia.
Qed.

Lemma calculateScore_skips_unknown_questions_witness :
  let this := mkParticipation 1 7 0 None
                [mkAnswer 5 [0%nat] false 0; mkAnswer 0 [0; 2]%nat false 0]
                0 2 0 0 None false 0 in
  let p := (calculateScore this [q_demo] 10).1 in
  answers this !! 0%nat = Some (mkAnswer 5 [0%nat] false 0)
  /\ [q_demo] !! 5%nat = None
  /\ answers p !! 0%nat = Some (mkAnswer 5 [0%nat] false 0)
  /\ (correctAnswers p + wrongAnswers p = 1)%nat.
Proof.
  intros this p.
  destruct calculateScore_skips_unknown_questions as [H _].
  destruct (H this [q_demo] 10) as (Hc & _ & _ & Hk & _).
  split; [reflexivity|]. split; [reflexivity|].
  split; [apply Hk; reflexivity|]. exact Hc.
Defined.

(** ** Contest lifecycle *)

(** C7.  For a contest whose end lies after its start (the schema's
    validator), the status [updateStatus] derives is UPCOMING exactly when
    now < start, ONGOING exactly when start <= now <= end, and ENDED
    exactly when now > end: three contiguous intervals that do not
    overlap. *)
Theorem updateStatus_partitions_timeline (c : Contest) (now : Z) :
  endTime_valid c ->
  (status (updateStatus c now) = UPCOMING <-> now < startTime c)
  /\ (status (updateStatus c now) = ONGOING
      <-> startTime c <= now <= endTime c)
  /\ (status (updateStatus c now) = ENDED <-> endTime c < now).
Proof.
  unfold endTime_valid, updateStatus. intros Hvalid.
  destruct (Z.ltb_spec now (startTime c));
    [|destruct (Z.geb_spec now (startTime c));
      destruct (Z.leb_spec now (endTime c))];
    simpl; (split; [|split]); split; intros; try done; lia.
Qed.

Lemma updateStatus_partitions_timeline_witness :
  endTime_valid quiz
  /\ (status (updateStatus quiz 150) = ONGOING
      <-> startTime quiz <= 150 <= endTime quiz)
  /\ status (updateStatus quiz 99) = UPCOMING
  /\ status (updateStatus quiz 201) = ENDED.
Proof.
  assert (endTime_valid quiz) as Hvalid by (unfold endTime_valid; simpl; lia).
  split; [exact Hvalid|]. split; [|split].
  - apply (updateStatus_partitions_timeline quiz 150 Hvalid).
  - apply (updateStatus_partitions_timeline quiz 99 Hvalid). simpl. lia.
  - apply (updateStatus_partitions_timeline quiz 201 Hvalid). simpl. lia.
Defined.

(** ** Running handlers *)

Lemma vip_only_false contest r :
  vip_only contest r = false
  <-> (ctype contest = VIP -> r = vip \/ r = admin).
Proof.
  unfold vip_only. destruct (ctype contest), r; simpl; split;
    try done; try (intros _ _; auto); try (intros H; by destruct H).
Qed.

Lemma list_find_none_iff {A} (P : A -> Prop) `{forall x, Decision (P x)}
    (l : list A) :
  list_find P l = None <-> forall x, x ∈ l -> ~ P x.
Proof. rewrite list_find_None. apply Forall_forall. Qed.

(** ** Joining *)

(** What one join does to the store, by cases on the checks in the order
    the handler makes them. *)
Lemma joinContest_run s user id now createdAt :
  run (joinContest user id now createdAt) s =
  match contests s !! id with
  | None => mkOutcome s (Some (mkReply 400 false ContestNotFound)) false
  | Some contest =>
    if negb (isActive contest)
    then mkOutcome s (Some (mkReply 400 false ContestNotActive)) false
    else if vip_only contest (role user)
    then mkOutcome s (Some (mkReply 400 false AccessDeniedVIP)) false
    else
      match list_find (is_participation_of (user_id user) id)
              (participations s) with
      | Some _ => mkOutcome s (Some (mkReply 400 false AlreadyJoinedContest)) false
      | None =>
        if now <? startTime contest
        then mkOutcome s (Some (mkReply 400 false ContestNotStarted)) false
        else if now >? endTime contest
        then mkOutcome s (Some (mkReply 400 false ContestAlreadyEnded)) false
        else if bool_decide (status contest <> ONGOING)
        then mkOutcome s (Some (mkReply 400 false ContestNotCurrentlyActive)) false
        else if (maxParticipants contest <=? currentParticipants contest)%nat
        then mkOutcome s (Some (mkReply 400 false ContestIsFull)) false
        else
          let p := new_participation (user_id user) id
                     (length (questions contest)) createdAt in
          let contest' := set_currentParticipants contest
                            (currentParticipants contest + 1)%nat in
          if presave_ok contest'
          then mkOutcome
                 (mkStore (<[id := contest']> (contests s))
                          (participations s ++ [p]))
                 (Some (mkReply 201 true (JoinedContest p))) false
          else mkOutcome
                 (mkStore (contests s) (participations s ++ [p]))
                 (Some (mkReply 200 false InternalServerError)) false
      end
  end.
Proof.
  unfold joinContest. unfold_handler.
  destruct (contests s !! id) as [contest|]; [|reflexivity].
  destruct (isActive contest); [|reflexivity]. cbn [negb].
  destruct (vip_only contest (role user)); [reflexivity|]. handler_step.
  destruct (list_find _ (participations s)) eqn:Hfind; [reflexivity|].
  destruct (now <? startTime contest); [reflexivity|].
  destruct (now >? endTime contest); [reflexivity|].
  destruct (bool_decide (status contest <> ONGOING)); [reflexivity|].
  destruct (maxParticipants contest <=? currentParticipants contest)%nat;
    [reflexivity|].
  handler_step. rewrite Hfind.
  handler_step. destruct (presave_ok _); reflexivity.
Qed.

(** C8.  A join by an eligible identity on an existing, active contest it
    has not joined yet is rejected as NotOpen whenever now < start, or
    now > end, or the stored status is not ONGOING; each of the three
    suffices, and nothing is written. *)
Theorem joinContest_not_open s user id now createdAt contest :
  contests s !! id = Some contest ->
  isActive contest = true ->
  (ctype contest = VIP -> role user = vip \/ role user = admin) ->
  (forall p, p ∈ participations s -> ~ is_participation_of (user_id user) id p) ->
  now < startTime contest \/ endTime contest < now \/ status contest <> ONGOING ->
  let o := run (joinContest user id now createdAt) s in
  final o = s
  /\ rejected o = false
  /\ exists r, response o = Some r
       /\ statusCode r = 400%nat
       /\ error_kind r = Some NotOpen.
Proof.
  intros Hfound Hactive Helig Hnew Hclosed o. subst o.
  apply vip_only_false in Helig.
  apply (list_find_none_iff (is_participation_of (user_id user) id)) in Hnew.
  rewrite joinContest_run, Hfound, Hactive, Helig, Hnew. cbn [negb].
  destruct (Z.ltb_spec now (startTime contest)); [cbn; eauto 7|].
  destruct (Z.gtb_spec now (endTime contest)); [cbn; eauto 7|].
  destruct (bool_decide_reflect (status contest <> ONGOING)); [cbn; eauto 7|].
  exfalso. destruct Hclosed as [?|[?|?]]; [lia|lia|done].
Qed.

Lemma joinContest_not_open_witness :
  let o := run (joinContest alice 7 99 99) quiz_store in
  final o = quiz_store
  /\ exists r, response o = Some r /\ error_kind r = Some NotOpen.
Proof.
  assert (forall p, p ∈ participations quiz_store ->
                    ~ is_participation_of (user_id alice) 7 p) as Hnew.
  { intros p Hp. by apply elem_of_nil in Hp. }
  destruct (joinContest_not_open quiz_store alice 7 99 99 quiz)
    as (Hs & _ & r & Hr & _ & Hk).
  - reflexivity.
  - reflexivity.
  - intros Hvip. discriminate Hvip.
  - exact Hnew.
  - left. simpl. lia.
  - split; [exact Hs|]. exists r. split; [exact Hr|exact Hk].
Defined.

Lemma participant_count_snoc cid l p :
  participant_count cid (l ++ [p])
  = (participant_count cid l + (if decide (contestId p = cid) then 1 else 0))%nat.
Proof.
  unfold participant_count. rewrite filter_app, length_app.
  rewrite filter_cons, filter_nil. unfold in_contest.
  by destruct (decide (contestId p = cid)).
Qed.

Lemma joinContest_full s user id now createdAt contest :
  contests s !! id = Some contest ->
  isActive contest = true ->
  (maxParticipants contest <= currentParticipants contest)%nat ->
  let o := run (joinContest user id now createdAt) s in
  final o = s
  /\ (exists r, response o = Some r /\ statusCode r = 400%nat /\ success r = false)
  /\ ((ctype contest = VIP -> role user = vip \/ role user = admin) ->
      (forall p, p ∈ participations s ->
                 ~ is_participation_of (user_id user) id p) ->
      startTime contest <= now <= endTime contest ->
      status contest = ONGOING ->
      exists r, response o = Some r /\ error_kind r = Some Full).
Proof.
  intros Hfound Hactive Hfull o. subst o.
  rewrite joinContest_run, Hfound, Hactive. cbn [negb].
  apply Nat.leb_le in Hfull.
  assert (forall m, exists r : Reply,
            Some (mkReply 400 false m) = Some r
            /\ statusCode r = 400%nat /\ success r = false) as Hrej
    by (intros m; eauto).
  destruct (vip_only contest (role user)) eqn:Hvip.
  { cbn. split; [done|]. split; [apply Hrej|].
    intros Helig. apply vip_only_false in Helig. congruence. }
  destruct (list_find _ (participations s)) eqn:Hfind.
  { cbn. split; [done|]. split; [apply Hrej|].
    intros _ Hnew.
    apply (list_find_none_iff (is_participation_of (user_id user) id)) in Hnew.
    congruence. }
  destruct (Z.ltb_spec now (startTime contest)).
  { cbn. split; [done|]. split; [apply Hrej|]. intros _ _ ?. lia. }
  destruct (Z.gtb_spec now (endTime contest)).
  { cbn. split; [done|]. split; [apply Hrej|]. intros _ _ ?. lia. }
  destruct (bool_decide_reflect (status contest <> ONGOING)).
  { cbn. split; [done|]. split; [apply Hrej|]. by intros _ _ _ ?. }
  rewrite Hfull. cbn. split; [done|]. split; [apply Hrej|]. eauto.
Qed.

Lemma joinContest_success s user id now createdAt r :
  let o := run (joinContest user id now createdAt) s in
  response o = Some r -> success r = true ->
  exists contest p,
    contests s !! id = Some contest
    /\ statusCode r = 201%nat
    /\ body r = JoinedContest p
    /\ userId p = user_id user /\ contestId p = id
    /\ totalQuestions p = length (questions contest)
    /\ isCompleted p = false
    /\ participations (final o) = participations s ++ [p]
    /\ contests (final o)
       = <[id := set_currentParticipants contest
                   (currentParticipants contest + 1)%nat]> (contests s).
Proof.
  intros o. subst o. rewrite joinContest_run.
  destruct (contests s !! id) as [contest|]; [|by intros [= <-]].
  repeat (case_match; [by intros [= <-]|]).
  cbv zeta. case_match; [|by intros [= <-]].
  cbn. intros [= <-] _. eexists _, _. repeat split.
Qed.

Lemma joinContest_preserves_consistency s user id now createdAt :
  counters_consistent s ->
  counters_consistent (final (run (joinContest user id now createdAt) s)).
Proof.
  intros Hinv. rewrite joinContest_run.
  destruct (contests s !! id) as [contest|] eqn:Hfound; [|done].
  repeat (case_match; [done|]).
  destruct (Hinv id contest Hfound) as (Hok & Hcount & Hcap). cbv zeta.
  assert (presave_ok (set_currentParticipants contest
                        (currentParticipants contest + 1)%nat) = true) as ->
    by done.
  cbn [final].
  match goal with H : (_ <=? _)%nat = false |- _ => apply Nat.leb_gt in H end.
  intros id' c'. cbn [contests participations].
  rewrite participant_count_snoc. cbn [contestId new_participation].
  destruct (decide (id = id')) as [<-|Hne].
  - rewrite lookup_insert_eq. intros [= <-]. cbn. split; [done|]. lia.
  - rewrite lookup_insert_ne by done. intros Hc'.
    destruct (Hinv id' c' Hc') as (? & ? & ?). repeat split; [done|lia|done].
Qed.

Lemma joins_preserve_consistency reqs s :
  counters_consistent s -> counters_consistent (joins reqs s).
Proof.
  revert s. induction reqs as [|r reqs IH]; intros s Hinv; [done|].
  simpl. apply IH. by apply joinContest_preserves_consistency.
Qed.

(** C3 (as amended).  On an existing active contest with
    currentParticipants >= maxParticipants no join succeeds or writes
    anything, and the rejection is Full once the request has passed the
    checks made before it (tier access, not already joined, inside the
    window, status ONGOING).  A successful join creates exactly one
    participation, with totalQuestions the length of the contest's question
    list, and adds exactly one to currentParticipants.  Hence, from a store
    whose counters agree with its participations, any sequence of joins
    served one after the other leaves every counter equal to the number of
    participations of its contest and within maxParticipants. *)
Theorem joinContest_capacity :
  (forall s user id now createdAt contest,
     contests s !! id = Some contest ->
     isActive contest = true ->
     (maxParticipants contest <= currentParticipants contest)%nat ->
     let o := run (joinContest user id now createdAt) s in
     final o = s
     /\ (exists r, response o = Some r
           /\ statusCode r = 400%nat /\ success r = false)
     /\ ((ctype contest = VIP -> role user = vip \/ role user = admin) ->
         (forall p, p ∈ participations s ->
                    ~ is_participation_of (user_id user) id p) ->
         startTime contest <= now <= endTime contest ->
         status contest = ONGOING ->
         exists r, response o = Some r /\ error_kind r = Some Full))
  /\ (forall s user id now createdAt r,
        let o := run (joinContest user id now createdAt) s in
        response o = Some r -> success r = true ->
        exists contest p,
          contests s !! id = Some contest
          /\ statusCode r = 201%nat
          /\ body r = JoinedContest p
          /\ userId p = user_id user /\ contestId p = id
          /\ totalQuestions p = length (questions contest)
          /\ isCompleted p = false
          /\ participations (final o) = participations s ++ [p]
          /\ contests (final o)
             = <[id := set_currentParticipants contest
                         (currentParticipants contest + 1)%nat]> (contests s))
  /\ (forall reqs s,
        counters_consistent s -> counters_consistent (joins reqs s)).
Proof.
  split; [|split].
  - apply joinContest_full.
  - apply joinContest_success.
  - apply joins_preserve_consistency.
Qed.

Lemma quiz_store_consistent : counters_consistent quiz_store.
Proof.
  intros id c Hc. unfold quiz_store in Hc. cbn [contests] in Hc.
  apply lookup_singleton_Some in Hc as [<- <-].
  vm_compute. repeat split. lia.
Qed.

Lemma joinContest_capacity_witness :
  counters_consistent quiz_store
  /\ counters_consistent
       (joins [mkJoinRequest alice 7 150 150; mkJoinRequest bob 7 151 151]
          quiz_store)
  /\ (exists r, response (run (joinContest bob 7 151 151) quiz_store_full) = Some r
        /\ error_kind r = Some Full)
  /\ final (run (joinContest bob 7 151 151) quiz_store_full) = quiz_store_full.
Proof.
  destruct joinContest_capacity as (Hfull & _ & Hseq).
  split; [exact quiz_store_consistent|].
  split; [apply Hseq; exact quiz_store_consistent|].
  destruct (Hfull quiz_store_full bob 7%nat 151 151
              (set_currentParticipants quiz 1)) as (Hs & _ & Hk).
  - reflexivity.
  - reflexivity.
  - simpl. lia.
  - split; [|exact Hs]. apply Hk.
    + intros Hvip. discriminate Hvip.
    + intros p Hp Hof. apply list_elem_of_singleton in Hp. subst p.
      destruct Hof as [Hu _]. discriminate Hu.
    + simpl. lia.
    + reflexivity.
Defined.

(** C3, the claim as first stated, fails: alice already holds the only seat
    of [quiz]; the contest exists, is active and is full, yet her second
    join is rejected as AlreadyJoined, not Full. *)
Lemma join_full_contest_not_Full_counterexample :
  exists contest,
    contests quiz_store_full !! 7%nat = Some contest
    /\ isActive contest = true
    /\ (maxParticipants contest <= currentParticipants contest)%nat
    /\ error_kind <$> response (run (joinContest alice 7 160 160) quiz_store_full)
       = Some (Some AlreadyJoined).
Proof.
  exists (set_currentParticipants quiz 1).
  split; [reflexivity|]. split; [reflexivity|]. split; [simpl; lia|].
  reflexivity.
Qed.

(** ** Submitting *)

Lemma findOne_unique l i p uid cid :
  unique_index l ->
  l !! i = Some p ->
  is_participation_of uid cid p ->
  list_find (is_participation_of uid cid) l = Some (i, p).
Proof.
  intros Huniq Hi Hp. apply list_find_Some. split; [done|]. split; [done|].
  intros j q Hj Hlt Hq.
  assert (j = i); [|lia].
  eapply NoDup_lookup; [exact Huniq| |].
  - rewrite list_lookup_fmap, Hj. reflexivity.
  - rewrite list_lookup_fmap, Hi. simpl.
    destruct Hp as [-> ->], Hq as [-> ->]. reflexivity.
Qed.

(** C4.  Once a participation is completed, a further submit for it is
    rejected as AlreadyCompleted, and the store (score, answers, counts,
    submitted-at included) stays as it was. *)
Theorem submitContest_write_once s user id answers now gradedAt contest i p :
  contests s !! id = Some contest ->
  unique_index (participations s) ->
  participations s !! i = Some p ->
  is_participation_of (user_id user) id p ->
  isCompleted p = true ->
  let o := run (submitContest user id answers now gradedAt) s in
  final o = s
  /\ rejected o = false
  /\ response o = Some (mkReply 400 false AlreadySubmitted)
  /\ error_kind (mkReply 400 false AlreadySubmitted) = Some AlreadyCompleted.
Proof.
  intros Hfound Huniq Hi Hp Hdone o. subst o.
  pose proof (findOne_unique _ _ _ _ _ Huniq Hi Hp) as Hfind.
  unfold submitContest. unfold_handler.
  rewrite Hfound. handler_step. rewrite Hfind. handler_step.
  rewrite Hdone. handler_step. done.
Qed.

Lemma submitContest_write_once_witness :
  let o := run (submitContest alice 7 [mkAnswerInput 0 [1%nat]] 170 171)
             quiz_store_done in
  final o = quiz_store_done
  /\ response o = Some (mkReply 400 false AlreadySubmitted).
Proof.
  destruct (submitContest_write_once quiz_store_done alice 7%nat
              [mkAnswerInput 0 [1%nat]] 170 171
              (set_currentParticipants quiz 1) 0%nat
              (mkParticipation 1 7 150 (Some 161) [] 0 1 0 0 None true 0))
    as (Hs & _ & Hr & _).
  - reflexivity.
  - vm_compute. repeat constructor. intros Hin. by apply elem_of_nil in Hin.
  - reflexivity.
  - split; reflexivity.
  - reflexivity.
  - split; [exact Hs|exact Hr].
Defined.

Lemma forEach_options_in_range question (index : nat) l i w :
  Forall (fun optionIndex => (optionIndex < length (options question))%nat) l ->
  forEach_from
    (fun optionIndex (_ : nat) =>
       if (optionIndex <? 0)%nat
          || (length (options question) <=? optionIndex)%nat
       then res_json 400 false (InvalidOptionIndex optionIndex (index + 1))
       else mret tt) i l w
  = (Normal tt, w).
Proof.
  intros Hall. revert i. induction Hall as [|o l Ho Hall IH]; intros i; [done|].
  cbn [forEach_from]. unfold mbind, Handler_bind.
  assert ((length (options question) <=? o)%nat = false) as ->
    by (apply Nat.leb_gt; lia).
  assert ((o <? 0)%nat = false) as -> by (apply Nat.ltb_ge; lia).
  cbn. apply IH.
Qed.

Lemma validateAnswer_well_formed contest a index w :
  answer_well_formed contest a ->
  validateAnswer contest a index w = (Normal tt, w).
Proof.
  intros (question & Hq & Hopts & Hone). unfold validateAnswer.
  rewrite Hq. unfold forEach, mbind, Handler_bind.
  rewrite (forEach_options_in_range _ _ _ _ _ Hopts).
  destruct (qtype question) eqn:Hty; cbn.
  - rewrite Hone by done. reflexivity.
  - reflexivity.
  - rewrite Hone by done. reflexivity.
Qed.

Lemma validateAnswer_unknown_question contest a index st :
  questions contest !! in_questionIndex a = None ->
  validateAnswer contest a index (mkWorld st None)
  = (Normal tt,
     mkWorld st
       (Some (mkReply 400 false (InvalidQuestionIndex (in_questionIndex a))))).
Proof. intros Hq. unfold validateAnswer. by rewrite Hq. Qed.

Lemma forEach_well_formed contest l i w :
  Forall (answer_well_formed contest) l ->
  forEach_from (validateAnswer contest) i l w = (Normal tt, w).
Proof.
  intros Hall. revert i. induction Hall as [|a l Ha Hall IH]; intros i; [done|].
  cbn [forEach_from]. unfold mbind, Handler_bind.
  rewrite (validateAnswer_well_formed _ _ _ _ Ha). apply IH.
Qed.

Lemma forEach_from_app {A} (f : A -> nat -> Handler unit) l1 l2 i w :
  forEach_from f i (l1 ++ l2) w
  = match forEach_from f i l1 w with
    | (Normal _, w') => forEach_from f (i + length l1) l2 w'
    | (Throw e, w') => (Throw e, w')
    end.
Proof.
  revert i w. induction l1 as [|x l1 IH]; intros i w.
  - cbn. by rewrite Nat.add_0_r.
  - cbn [app forEach_from length]. unfold mbind, Handler_bind.
    destruct (f x i w) as [[[]|e] w']; [|done].
    rewrite IH. by replace (S i + length l1)%nat with (i + S (length l1))%nat
      by lia.
Qed.

(** C1, where the code departs from it.  A participant who has not
    submitted hands in, in time, a sheet of the right length in which one
    answer names a question that does not exist and all the others are
    well formed.  The reply is the 400 "Invalid question index", an
    InvalidAnswer; but the [return] that sends it only leaves the [forEach]
    callback, so [calculateScore] and [save] still run: the stored
    participation is replaced by its graded, completed and time-stamped
    version, and the last [res.json] throws on a response already sent. *)
Theorem submitContest_invalid_answer_still_graded
    s user id contest i p before bad after now gradedAt :
  contests s !! id = Some contest ->
  unique_index (participations s) ->
  participations s !! i = Some p ->
  is_participation_of (user_id user) id p ->
  isCompleted p = false ->
  now <= endTime contest ->
  length (before ++ bad :: after) = length (questions contest) ->
  Forall (answer_well_formed contest) before ->
  questions contest !! in_questionIndex bad = None ->
  Forall (answer_well_formed contest) after ->
  let o := run (submitContest user id (before ++ bad :: after) now gradedAt) s in
  let graded :=
    calculateTimeSpent (calculateScore p (questions contest) gradedAt).1 in
  response o
  = Some (mkReply 400 false (InvalidQuestionIndex (in_questionIndex bad)))
  /\ error_kind (mkReply 400 false (InvalidQuestionIndex (in_questionIndex bad)))
     = Some InvalidAnswer
  /\ participations (final o) = <[i := graded]> (participations s)
  /\ isCompleted graded = true
  /\ submittedAt graded = Some gradedAt
  /\ rejected o = true.
Proof.
  intros Hfound Huniq Hi Hp Hopen Htime Hlen Hbefore Hbad Hafter o graded.
  subst o graded.
  pose proof (findOne_unique _ _ _ _ _ Huniq Hi Hp) as Hfind.
  unfold submitContest. unfold_handler.
  rewrite Hfound. handler_step. rewrite Hfind. handler_step.
  rewrite Hopen. handler_step.
  assert ((now >? endTime contest) = false) as ->
    by (rewrite Z.gtb_ltb; apply Z.ltb_ge; lia).
  rewrite Hlen, Nat.eqb_refl. cbn [negb].
  unfold forEach. rewrite forEach_from_app.
  rewrite (forEach_well_formed _ _ _ _ Hbefore).
  cbn [forEach_from]. unfold mbind, Handler_bind.
  rewrite (validateAnswer_unknown_question _ _ _ _ Hbad).
  rewrite (forEach_well_formed _ _ _ _ Hafter).
  unfold calculateScore, calculateTimeSpent.
  destruct (gradeAnswers (questions contest) (mkTally 0 0 0) (answers p))
    as [t gradedAnswers].
  cbn. repeat split.
Qed.

Lemma submitContest_invalid_answer_still_graded_witness :
  let o := run (submitContest alice 7 [mkAnswerInput 5 [0%nat]] 160 161)
             quiz_store_full in
  participations quiz_store_full
  = [mkParticipation 1 7 150 None [] 0 1 0 0 None false 0]
  /\ response o = Some (mkReply 400 false (InvalidQuestionIndex 5))
  /\ participations (final o)
     = [mkParticipation 1 7 150 (Some 161) [] 0 1 0 0 None true 0]
  /\ rejected o = true.
Proof.
  destruct (submitContest_invalid_answer_still_graded quiz_store_full alice
              7%nat (set_currentParticipants quiz 1) 0%nat
              (mkParticipation 1 7 150 None [] 0 1 0 0 None false 0)
              [] (mkAnswerInput 5 [0%nat]) [] 160 161)
    as (Hr & _ & Hs & _ & _ & Hrej).
  - reflexivity.
  - vm_compute. repeat constructor. intros Hin. by apply elem_of_nil in Hin.
  - reflexivity.
  - split; reflexivity.
  - reflexivity.
  - simpl. lia.
  - reflexivity.
  - constructor.
  - reflexivity.
  - constructor.
  - split; [reflexivity|]. split; [exact Hr|]. split; [exact Hs|exact Hrej].
Defined.

(** ** Question mutation *)

Lemma question_route_closed s req id now contest :
  contests s !! id = Some contest ->
  startTime contest <= now ->
  let o := run (question_route req id now) s in
  final o = s /\ rejected o = false
  /\ exists r, response o = Some r /\ is_rejection r.
Proof.
  intros Hfound Hstarted o. subst o.
  assert ((now >=? startTime contest) = true) as Hge by (apply Z.geb_le; lia).
  destruct req as [b|questionIndex b|questionIndex]; simpl;
    [unfold addQuestion|unfold editQuestion|unfold deleteQuestion];
    unfold_handler; rewrite Hfound; handler_step.
  - rewrite Hge. handler_step. unfold is_rejection. eauto 7.
  - destruct (index_out_of_range _ _); [|rewrite Hge]; handler_step;
      unfold is_rejection; eauto 7.
  - destruct (index_out_of_range _ _); [|rewrite Hge]; handler_step;
      unfold is_rejection; eauto 7.
Qed.

Lemma question_route_success s req id now r :
  response (run (question_route req id now) s) = Some r ->
  success r = true ->
  exists contest, contests s !! id = Some contest /\ now < startTime contest.
Proof.
  destruct (contests s !! id) as [contest|] eqn:Hfound.
  - destruct (Z.lt_ge_cases now (startTime contest)) as [Hlt|Hge]; [eauto|].
    destruct (question_route_closed s req id now contest Hfound Hge)
      as (_ & _ & r' & Hr' & _ & Hfail).
    intros Hr Hok. congruence.
  - destruct req as [b|questionIndex b|questionIndex]; simpl;
      [unfold addQuestion|unfold editQuestion|unfold deleteQuestion];
      unfold_handler; rewrite Hfound; handler_step;
      intros [= <-]; done.
Qed.

(** C9.  Once now >= start, every request to add, edit or delete a
    question of the contest is rejected and the store, the question list
    with it, is left as it was; a question request that succeeds was made
    while now < start. *)
Theorem question_mutation_closed_after_start s req id now contest :
  contests s !! id = Some contest ->
  startTime contest <= now ->
  let o := run (question_route req id now) s in
  (final o = s
   /\ (questions <$> contests (final o) !! id) = Some (questions contest)
   /\ exists r, response o = Some r /\ is_rejection r)
  /\ forall now' r,
       response (run (question_route req id now') s) = Some r ->
       success r = true ->
       now' < startTime contest.
Proof.
  intros Hfound Hstarted o. subst o.
  destruct (question_route_closed s req id now contest Hfound Hstarted)
    as (Hs & _ & Hr).
  split.
  - split; [done|]. split; [|done]. by rewrite Hs, Hfound.
  - intros now' r Hresp Hok.
    destruct (question_route_success s req id now' r Hresp Hok)
      as (c & Hc & Hlt).
    congruence.
Qed.

Lemma question_mutation_closed_after_start_witness :
  let o := run (question_route (AddQuestion new_question) 7 100) quiz_store in
  final o = quiz_store
  /\ response o = Some (mkReply 400 false CannotAddAfterStart)
  /\ (exists r, response (run (question_route (AddQuestion new_question) 7 99)
                            quiz_store) = Some r
                /\ success r = true).
Proof.
  destruct (question_mutation_closed_after_start quiz_store
              (AddQuestion new_question) 7%nat 100 quiz)
    as ((Hs & _ & _) & _).
  - reflexivity.
  - simpl. lia.
  - split; [exact Hs|]. split; [reflexivity|].
    eexists. split; reflexivity.
Defined.

(** ** Ranking *)

#[global] Instance ranking_le_total : Total ranking_le.
Proof.
  intros p q. unfold ranking_le.
  destruct (lt_eq_lt_dec (score p) (score q)) as [[Hlt|Heq]|Hgt]; [auto| |auto].
  destruct (submittedAt p) as [x|], (submittedAt q) as [y|]; simpl; auto.
  destruct (Z.le_ge_cases x y); auto.
Qed.

#[global] Instance ranking_le_trans : Transitive ranking_le.
Proof.
  intros p q r. unfold ranking_le.
  intros [Hpq|[Hpq Hd1]] [Hqr|[Hqr Hd2]]; [left; lia..|].
  right. split; [congruence|].
  destruct (submittedAt p), (submittedAt q), (submittedAt r);
    simpl in *; try done; lia.
Qed.

Lemma mongo_sort_sorted l : StronglySorted ranking_le (mongo_sort l).
Proof. apply StronglySorted_merge_sort; apply _. Qed.

Lemma mongo_sort_Permutation l : mongo_sort l ≡ₚ l.
Proof. apply merge_sort_Permutation. Qed.

Lemma ranking_le_set_rank p q r1 r2 :
  ranking_le p q -> ranking_le (set_rank p r1) (set_rank q r2).
Proof. done. Qed.

Lemma ranks_keep_order (g : nat -> nat) l :
  StronglySorted ranking_le l ->
  StronglySorted ranking_le
    (imap (fun index participant => set_rank participant (Some (g index))) l).
Proof.
  intros Hsorted. revert g.
  induction Hsorted as [|p l Hsorted IH Hall]; intros g; [constructor|].
  rewrite imap_cons. constructor.
  - apply (IH (fun index => g (S index))).
  - apply Forall_forall. intros e He.
    apply elem_of_lookup_imap in He as (i & q & -> & Hq).
    apply ranking_le_set_rank.
    rewrite Forall_forall in Hall. apply Hall.
    by eapply list_elem_of_lookup_2.
Qed.

Lemma assign_ranks_sorted l :
  StronglySorted ranking_le l -> StronglySorted ranking_le (assign_ranks l).
Proof. apply (ranks_keep_order (fun index => index + 1)%nat). Qed.

Lemma assign_ranks_lookup l i e :
  assign_ranks l !! i = Some e ->
  exists p, l !! i = Some p /\ e = set_rank p (Some (i + 1)%nat).
Proof.
  unfold assign_ranks. rewrite list_lookup_imap.
  destruct (l !! i) as [p|]; [|done]. intros [= <-]. eauto.
Qed.

Lemma assign_ranks_erase l :
  (fun e => set_rank e None) <$> assign_ranks l
  = (fun p => set_rank p None) <$> l.
Proof.
  unfold assign_ranks. rewrite fmap_imap.
  rewrite (imap_ext _ (const (fun p => set_rank p None))) by done.
  apply imap_const.
Qed.

Lemma take_sorted n l :
  StronglySorted ranking_le l -> StronglySorted ranking_le (take n l).
Proof.
  intros Hsorted. rewrite <- (take_drop n l) in Hsorted.
  by apply StronglySorted_app_1_l in Hsorted.
Qed.

Lemma contestLeaderboard_run s user id contest :
  contests s !! id = Some contest ->
  may_view contest user ->
  run (contestLeaderboard user id) s =
  mkOutcome s
    (Some (mkReply 200 true
             (Leaderboard
                (assign_ranks
                   (take 100 (mongo_sort
                                (filter (completed_in id) (participations s)))))
                (reported_rank s user id))))
    false.
Proof.
  intros Hfound Hview. unfold contestLeaderboard. unfold_handler.
  rewrite Hfound. handler_step.
  assert (bool_decide (ctype contest = VIP)
          && match user with
             | Some u => bool_decide (role u <> vip)
                         && bool_decide (role u <> admin)
             | None => true
             end = false) as ->.
  { unfold may_view in Hview. destruct (ctype contest); [done|].
    destruct Hview as (u & -> & Hrole); [done|].
    simpl. by destruct Hrole as [-> | ->]. }
  handler_step. unfold reported_rank, userRankOf.
  destruct user as [u|]; [|reflexivity].
  unfold_handler.
  destruct (list_find _ (participations s)) as [[i up]|]; reflexivity.
Qed.

Lemma getLeaderboard_run s id contest :
  contests s !! id = Some contest ->
  run (getLeaderboard id) s =
  mkOutcome s
    (Some (mkReply 200 true
             (AdminLeaderboard
                (assign_ranks
                   (mongo_sort (filter (in_contest id) (participations s)))))))
    false.
Proof.
  intros Hfound. unfold getLeaderboard. unfold_handler.
  rewrite Hfound. reflexivity.
Qed.

Lemma elem_of_leaderboard_prefix n l e P `{forall p, Decision (P p)}
    (ps : list Participation) :
  l ≡ₚ filter P ps ->
  e ∈ assign_ranks (take n l) ->
  exists p, p ∈ ps /\ P p /\ e = set_rank p (rank e).
Proof.
  intros Hperm He. apply list_elem_of_lookup in He as [i Hi].
  apply assign_ranks_lookup in Hi as (p & Hp & ->).
  apply list_elem_of_lookup_2, subseteq_take in Hp.
  rewrite Hperm in Hp. apply list_elem_of_filter in Hp as [HP Hin].
  exists p. auto.
Qed.

(** C5 (as amended).  The public leaderboard lists completed participations
    of the contest only, the first 100 in the order score descending, then
    submitted-at ascending, with ranks 1, 2, ... by output position.  The
    administrative leaderboard uses the same order and the same ranks, but
    lists every participation of the contest, completed or not. *)
Theorem leaderboards_ranked :
  (forall s user id contest,
     contests s !! id = Some contest ->
     may_view contest user ->
     exists lb userRank,
       response (run (contestLeaderboard user id) s)
       = Some (mkReply 200 true (Leaderboard lb userRank))
       /\ (forall e, e ∈ lb -> contestId e = id /\ isCompleted e = true)
       /\ (exists sorted,
             sorted ≡ₚ filter (completed_in id) (participations s)
             /\ (fun e => set_rank e None) <$> lb
                = (fun p => set_rank p None) <$> take 100 sorted)
       /\ StronglySorted ranking_le lb
       /\ (forall i e, lb !! i = Some e -> rank e = Some (i + 1)%nat))
  /\ (forall s id contest,
        contests s !! id = Some contest ->
        exists lb,
          response (run (getLeaderboard id) s)
          = Some (mkReply 200 true (AdminLeaderboard lb))
          /\ (fun e => set_rank e None) <$> lb
             ≡ₚ (fun p => set_rank p None)
                  <$> filter (in_contest id) (participations s)
          /\ StronglySorted ranking_le lb
          /\ (forall i e, lb !! i = Some e -> rank e = Some (i + 1)%nat)).
Proof.
  split.
  - intros s user id contest Hfound Hview.
    rewrite (contestLeaderboard_run _ _ _ _ Hfound Hview). cbn [response].
    eexists _, _. split; [reflexivity|]. split; [|split; [|split]].
    + intros e He.
      eapply (elem_of_leaderboard_prefix _ _ _ (completed_in id)) in He
        as (p & _ & [Hc Hd] & ->); [done|].
      apply mongo_sort_Permutation.
    + eexists. split; [apply mongo_sort_Permutation|].
      apply assign_ranks_erase.
    + apply assign_ranks_sorted, take_sorted, mongo_sort_sorted.
    + intros i e Hi. by apply assign_ranks_lookup in Hi as (p & _ & ->).
  - intros s id contest Hfound.
    rewrite (getLeaderboard_run _ _ _ Hfound). cbn [response].
    eexists. split; [reflexivity|]. split; [|split].
    + rewrite assign_ranks_erase. by rewrite mongo_sort_Permutation.
    + apply assign_ranks_sorted, mongo_sort_sorted.
    + intros i e Hi. by apply assign_ranks_lookup in Hi as (p & _ & ->).
Qed.

Lemma leaderboards_ranked_witness :
  exists lb userRank,
    response (run (contestLeaderboard (Some alice) 7) board_store)
    = Some (mkReply 200 true (Leaderboard lb userRank))
    /\ (forall e, e ∈ lb -> contestId e = 7%nat /\ isCompleted e = true)
    /\ StronglySorted ranking_le lb.
Proof.
  destruct leaderboards_ranked as [Hpublic _].
  destruct (Hpublic board_store (Some alice) 7%nat quiz3)
    as (lb & userRank & Hr & Hdone & _ & Hsorted & _).
  - reflexivity.
  - intros Hvip. discriminate Hvip.
  - exists lb, userRank. split; [exact Hr|]. split; [exact Hdone|exact Hsorted].
Defined.

(** C5, the claim as first stated, fails on the administrative
    leaderboard: bob has joined and not submitted, and he is listed, ahead
    of alice, who has. *)
Lemma admin_leaderboard_lists_unsubmitted_counterexample :
  exists e rest,
    response (run (getLeaderboard 7) board_store)
    = Some (mkReply 200 true (AdminLeaderboard (e :: rest)))
    /\ userId e = user_id bob
    /\ isCompleted e = false
    /\ rank e = Some 1%nat.
Proof. eexists _, _. vm_compute. repeat split. Qed.

Lemma filter_ext_in {A} (P1 P2 : A -> Prop)
    `{!forall x, Decision (P1 x), !forall x, Decision (P2 x)} (l : list A) :
  (forall x, x ∈ l -> (P1 x <-> P2 x)) -> filter P1 l = filter P2 l.
Proof.
  induction l as [|a l IH]; intros Hext; [done|].
  rewrite !filter_cons.
  rewrite IH by (intros x Hx; apply Hext; by right).
  destruct (decide (P1 a)) as [H1|H1], (decide (P2 a)) as [H2|H2];
    try done; exfalso; apply (Hext a (list_elem_of_here _ _)) in H1 || 
    apply (Hext a (list_elem_of_here _ _)) in H2; done.
Qed.

Lemma unique_index_same_key l p q :
  unique_index l -> p ∈ l -> q ∈ l ->
  userId p = userId q -> contestId p = contestId q -> p = q.
Proof.
  intros Huniq Hp Hq Hu Hc.
  apply list_elem_of_lookup in Hp as [i Hi], Hq as [j Hj].
  assert (i = j) as ->; [|congruence].
  eapply NoDup_lookup; [exact Huniq| |].
  - rewrite list_lookup_fmap, Hi. reflexivity.
  - rewrite list_lookup_fmap, Hj. simpl. by rewrite Hu, Hc.
Qed.

Lemma strictly_ahead_irrefl p : ~ strictly_ahead p p.
Proof.
  unfold strictly_ahead. intros [Hlt|[_ Hd]]; [lia|].
  destruct (submittedAt p); simpl in Hd; [lia|done].
Qed.

Lemma userRankOf_run uid id w :
  userRankOf uid id w
  = (Normal (reported_rank (store w) (Some (mkUser uid normal)) id), w).
Proof.
  unfold userRankOf, reported_rank. unfold_handler. cbn [user_id].
  destruct (list_find _ (participations (store w))) as [[i up]|]; reflexivity.
Qed.

Lemma reported_rank_role s uid r1 r2 id :
  reported_rank s (Some (mkUser uid r1)) id
  = reported_rank s (Some (mkUser uid r2)) id.
Proof. reflexivity. Qed.

(** C6.  The rank computed for an identity is 1 plus the number of other
    completed participations of the contest that are strictly ahead of its
    own (a higher score, or the same score and an earlier submitted-at);
    it is absent when the identity has no completed participation of that
    contest.  [contestLeaderboard] reports this rank to every caller
    allowed to see the board. *)
Theorem userRank_counts_those_ahead s uid id :
  unique_index (participations s) ->
  exists userRank,
    (forall w, store w = s -> userRankOf uid id w = (Normal userRank, w))
    /\ ((forall p, p ∈ participations s ->
           ~ is_completed_participation_of uid id p) ->
        userRank = None)
    /\ (forall p, p ∈ participations s ->
          is_completed_participation_of uid id p ->
          userRank
          = Some (1 + length
                        (filter (fun q => userId q <> uid
                                          /\ completed_in id q
                                          /\ strictly_ahead p q)
                           (participations s)))%nat)
    /\ (forall user contest,
          user_id user = uid ->
          contests s !! id = Some contest ->
          may_view contest (Some user) ->
          exists lb,
            response (run (contestLeaderboard (Some user) id) s)
            = Some (mkReply 200 true (Leaderboard lb userRank))).
Proof.
  intros Huniq.
  exists (reported_rank s (Some (mkUser uid normal)) id).
  split; [intros w <-; apply userRankOf_run|].
  assert (forall user contest,
            user_id user = uid ->
            contests s !! id = Some contest ->
            may_view contest (Some user) ->
            exists lb,
              response (run (contestLeaderboard (Some user) id) s)
              = Some (mkReply 200 true
                        (Leaderboard lb
                           (reported_rank s (Some (mkUser uid normal)) id))))
    as Hboard.
  { intros [uid' r] contest Hid Hfound Hview. simpl in Hid. subst uid'.
    rewrite (contestLeaderboard_run _ _ _ _ Hfound Hview). cbn [response].
    eexists. by rewrite (reported_rank_role s uid r normal). }
  unfold reported_rank in *. cbn [user_id] in *.
  destruct (list_find _ (participations s)) as [[i up]|] eqn:Hfind.
  - apply list_find_Some in Hfind as (Hi & Hup & _).
    apply list_elem_of_lookup_2 in Hi. split; [|split; [|exact Hboard]].
    + intros Hnone. by destruct (Hnone up Hi).
    + intros p Hp Hmine.
      assert (p = up) as ->.
      { destruct Hmine as (? & ? & _), Hup as (? & ? & _).
        apply (unique_index_same_key (participations s)); congruence. }
      f_equal. rewrite Nat.add_comm. f_equal. f_equal.
      apply filter_ext_in. intros q Hq. split; [|tauto].
      intros [Hdone Hahead]. split; [|done].
      intros Hsame. destruct Hdone as [Hc _], Hup as (Hu & Hc' & _).
      assert (q = up) as ->
        by (apply (unique_index_same_key (participations s)); congruence).
      by apply strictly_ahead_irrefl in Hahead.
  - apply list_find_None in Hfind. rewrite Forall_forall in Hfind.
    split; [done|]. split; [|exact Hboard].
    intros p Hp Hmine. by destruct (Hfind p Hp).
Qed.

Lemma ranked_store_unique : unique_index (participations ranked_store).
Proof.
  unfold unique_index. vm_compute.
  repeat (constructor;
          [rewrite ?elem_of_cons, elem_of_nil; intuition congruence|]).
  constructor.
Qed.

Lemma userRank_counts_those_ahead_witness :
  unique_index (participations ranked_store)
  /\ userRankOf 1 7 (mkWorld ranked_store None)
     = (Normal (Some 3%nat), mkWorld ranked_store None)
  /\ userRankOf 4 7 (mkWorld ranked_store None)
     = (Normal None, mkWorld ranked_store None).
Proof.
  split; [exact ranked_store_unique|]. split.
  - destruct (userRank_counts_those_ahead ranked_store 1%nat 7%nat
                ranked_store_unique) as (userRank & Hrun & _ & Hrank & _).
    rewrite (Hrun (mkWorld ranked_store None) eq_refl). do 2 f_equal.
    rewrite (Hrank (mkParticipation 1 7 150 (Some 170) [] 50 1 1 0 None true 20)).
    + reflexivity.
    + apply list_elem_of_here.
    + repeat split.
  - destruct (userRank_counts_those_ahead ranked_store 4%nat 7%nat
                ranked_store_unique) as (userRank & Hrun & Hnone & _).
    rewrite (Hrun (mkWorld ranked_store None) eq_refl). do 2 f_equal.
    apply Hnone. intros p Hp (Hu & _).
    repeat (apply elem_of_cons in Hp as [->|Hp]; [discriminate Hu|]).
    by apply elem_of_nil in Hp.
Defined.

Example ranking_demo :
  (fun p => (userId p, rank p))
    <$> assign_ranks (mongo_sort (participations ranked_store))
  = [(2, Some 1); (3, Some 2); (1, Some 3)]%nat.
Proof. vm_compute. reflexivity. Qed.

(** * Further properties *)

(** ** Grading, continued *)

Lemma gradeAnswer_single_choice contestQuestions t answer question :
  contestQuestions !! questionIndex answer = Some question ->
  qtype question <> multi_select ->
  gradeAnswer contestQuestions t answer =
    let ok := firstSelectedIsCorrect question answer in
    let earned := if ok then points question else 0%nat in
    (mkTally (totalScore t + earned)
       (if ok then S (correctCount t) else correctCount t)
       (if ok then wrongCount t else S (wrongCount t)),
     mkAnswer (questionIndex answer) (selectedOptions answer) ok earned).
Proof.
  intros Hq Hty. unfold gradeAnswer. rewrite Hq.
  by destruct (qtype question).
Qed.

Lemma firstSelectedIsCorrect_iff question answer :
  firstSelectedIsCorrect question answer = true
  <-> exists k, selectedOptions answer !! 0%nat = Some k
                /\ is_correct_index question k.
Proof.
  unfold firstSelectedIsCorrect, is_correct_index.
  destruct (selectedOptions answer !! 0%nat) as [k|]; [|split; [done|]].
  - destruct (options question !! k) as [o|] eqn:Hk; simpl.
    + split.
      * intros Ho. exists k. by rewrite Hk, <- Ho.
      * intros (k' & [= <-] & Hc). rewrite Hk in Hc. by injection Hc.
    + split; [done|]. intros (k' & [= <-] & Hc). by rewrite Hk in Hc.
  - by intros (k & Hk & _).
Qed.

(** X1.  For a single-select or true-false question, [calculateScore]
    looks at the first selected index only: the answer is correct exactly
    when that index names an option flagged correct, whatever follows it in
    the selection; an empty selection is incorrect.  The selection is
    stored as it was and the answer earns the question's points or 0. *)
Theorem single_choice_grading contestQuestions t answer question :
  contestQuestions !! questionIndex answer = Some question ->
  qtype question <> multi_select ->
  let graded := (gradeAnswer contestQuestions t answer).2 in
  (answerIsCorrect graded = true
   <-> exists k, selectedOptions answer !! 0%nat = Some k
                 /\ is_correct_index question k)
  /\ (selectedOptions answer = [] -> answerIsCorrect graded = false)
  /\ (forall k rest rest',
        selectedOptions answer = k :: rest ->
        answerIsCorrect graded
        = answerIsCorrect
            (gradeAnswer contestQuestions t
               (mkAnswer (questionIndex answer) (k :: rest') false 0)).2)
  /\ selectedOptions graded = selectedOptions answer
  /\ pointsEarned graded
     = (if answerIsCorrect graded then points question else 0%nat).
Proof.
  intros Hq Hty graded. subst graded.
  rewrite (gradeAnswer_single_choice _ _ _ _ Hq Hty).
  cbv zeta. cbn [snd answerIsCorrect selectedOptions pointsEarned].
  split; [apply firstSelectedIsCorrect_iff|].
  split; [|split; [|done]].
  - intros Hnil. unfold firstSelectedIsCorrect. by rewrite Hnil.
  - intros k rest rest' Hsel.
    rewrite (gradeAnswer_single_choice _ _ _ question) by done.
    cbv zeta. cbn [snd answerIsCorrect].
    unfold firstSelectedIsCorrect. by rewrite Hsel.
Qed.

Lemma single_choice_grading_witness :
  let answer := mkAnswer 0 [0; 1]%nat false 0 in
  let graded := (gradeAnswer [quiz_question] (mkTally 0 0 0) answer).2 in
  [quiz_question] !! questionIndex answer = Some quiz_question
  /\ qtype quiz_question <> multi_select
  /\ answerIsCorrect graded = true
  /\ pointsEarned graded = 2%nat.
Proof.
  intros answer graded.
  assert (qtype quiz_question <> multi_select) as Hty by discriminate.
  destruct (single_choice_grading [quiz_question] (mkTally 0 0 0) answer
              quiz_question eq_refl Hty) as (Hiff & _ & _ & _ & Hpts).
  assert (answerIsCorrect graded = true) as Hok.
  { apply Hiff. exists 0%nat. split; reflexivity. }
  split; [reflexivity|]. split; [exact Hty|]. split; [exact Hok|].
  fold graded in Hpts. rewrite Hpts, Hok. reflexivity.
Defined.

Lemma js_sort_idemp l : js_sort (js_sort l) = js_sort l.
Proof. apply js_sort_canonical, js_sort_Permutation. Qed.

Lemma gradeAnswer_regrade contestQuestions t a :
  gradeAnswer contestQuestions t (gradeAnswer contestQuestions t a).2
  = gradeAnswer contestQuestions t a.
Proof.
  destruct (contestQuestions !! questionIndex a) as [q|] eqn:Hq.
  - destruct (decide (qtype q = multi_select)) as [Hty|Hty].
    + rewrite (gradeAnswer_multi_select _ _ a q Hq Hty). cbv zeta. cbn [snd].
      rewrite (gradeAnswer_multi_select _ _ _ q) by done.
      cbv zeta. cbn [questionIndex selectedOptions].
      assert (multiSelectIsCorrect q (multiSelectIsCorrect q (selectedOptions a)).1
              = multiSelectIsCorrect q (selectedOptions a)) as ->; [|done].
      unfold multiSelectIsCorrect at 2. cbn [fst].
      apply multiSelectIsCorrect_order, js_sort_Permutation.
    + rewrite (gradeAnswer_single_choice _ _ a q Hq Hty). cbv zeta. cbn [snd].
      by rewrite (gradeAnswer_single_choice _ _ _ q) by done.
  - by rewrite (gradeAnswer_skip _ _ _ Hq), (gradeAnswer_skip _ _ _ Hq).
Qed.

Lemma gradeAnswers_regrade contestQuestions t l :
  gradeAnswers contestQuestions t (gradeAnswers contestQuestions t l).2
  = gradeAnswers contestQuestions t l.
Proof.
  revert t. induction l as [|a l IH]; intros t; [done|].
  cbn [gradeAnswers].
  pose proof (gradeAnswer_regrade contestQuestions t a) as Ha.
  destruct (gradeAnswer contestQuestions t a) as [t1 a1].
  specialize (IH t1).
  destruct (gradeAnswers contestQuestions t1 l) as [t2 l2].
  cbn [snd] in *. cbn [gradeAnswers]. by rewrite Ha, IH.
Qed.

(** X2.  Grading again what was graded changes nothing but the time stamp:
    a second [calculateScore] over the same questions leaves the answers,
    the score and both counts as the first one wrote them. *)
Theorem calculateScore_regrade this contestQuestions now later :
  let once := calculateScore this contestQuestions now in
  let twice := calculateScore once.1 contestQuestions later in
  twice.2 = once.2
  /\ answers twice.1 = answers once.1
  /\ score twice.1 = score once.1
  /\ correctAnswers twice.1 = correctAnswers once.1
  /\ wrongAnswers twice.1 = wrongAnswers once.1
  /\ submittedAt twice.1 = Some later.
Proof.
  unfold calculateScore.
  pose proof (gradeAnswers_regrade contestQuestions (mkTally 0 0 0)
                (answers this)) as Hre.
  destruct (gradeAnswers contestQuestions (mkTally 0 0 0) (answers this))
    as [t graded]. cbn [fst snd answers] in *. rewrite Hre. done.
Qed.

Lemma gradeAnswer_full_marks contestQuestions t a q :
  contestQuestions !! questionIndex a = Some q ->
  let r := gradeAnswer contestQuestions t a in
  pointsEarned r.2 = (if answerIsCorrect r.2 then points q else 0%nat)
  /\ correctCount r.1
     = (correctCount t + if answerIsCorrect r.2 then 1 else 0)%nat
  /\ wrongCount r.1
     = (wrongCount t + if answerIsCorrect r.2 then 0 else 1)%nat.
Proof.
  intros Hq. unfold gradeAnswer. rewrite Hq.
  destruct (match qtype q with single_select => _ | _ => _ end) as [sel [|]];
    cbn; repeat split; lia.
Qed.

Lemma gradeAnswers_flags contestQuestions l t :
  let r := gradeAnswers contestQuestions t l in
  correctCount r.1
  = (correctCount t
     + length (filter (graded_correct contestQuestions) r.2))%nat
  /\ wrongCount r.1
     = (wrongCount t
        + length (filter (graded_wrong contestQuestions) r.2))%nat
  /\ Forall (fun a =>
               forall q, contestQuestions !! questionIndex a = Some q ->
                 pointsEarned a
                 = if answerIsCorrect a then points q else 0%nat) r.2.
Proof.
  revert t. induction l as [|a l IH]; intros t.
  - cbn. repeat split; try lia. constructor.
  - cbn [gradeAnswers].
    pose proof (gradeAnswer_questionIndex contestQuestions t a) as Hidx.
    pose proof (gradeAnswer_full_marks contestQuestions t a) as Hfull.
    pose proof (gradeAnswer_skip contestQuestions t a) as Hskip.
    destruct (gradeAnswer contestQuestions t a) as [t1 a1].
    specialize (IH t1).
    destruct (gradeAnswers contestQuestions t1 l) as [t2 l2].
    cbn [fst snd] in *. destruct IH as (IHc & IHw & IHp).
    rewrite !filter_cons.
    destruct (contestQuestions !! questionIndex a) as [q|] eqn:Hq.
    + assert (answered contestQuestions a1) as Hans
        by (unfold answered; rewrite Hidx, Hq; by eexists).
      destruct (Hfull q eq_refl) as (Hp & Hc & Hw).
      split; [|split].
      * case_decide as Hd.
        -- destruct Hd as [_ Hflag]. rewrite Hflag in Hc. cbn [length]. lia.
        -- assert (answerIsCorrect a1 = false) as Hflag
             by (apply not_true_is_false; intros ?; by apply Hd).
           rewrite Hflag in Hc. lia.
      * case_decide as Hd.
        -- destruct Hd as [_ Hflag]. rewrite Hflag in Hw. cbn [length]. lia.
        -- assert (answerIsCorrect a1 = true) as Hflag
             by (apply not_false_is_true; intros ?; by apply Hd).
           rewrite Hflag in Hw. lia.
      * constructor; [|done]. intros q'. rewrite Hidx, Hq. by intros [= <-].
    + injection (Hskip eq_refl) as -> ->.
      assert (~ answered contestQuestions a) as Hans
        by (unfold answered; rewrite Hq; by intros [? ?]).
      rewrite !decide_False by (by intros [? _]).
      split; [exact IHc|]. split; [exact IHw|].
      constructor; [|done]. intros q'. by rewrite Hq.
Qed.

(** X3.  No partial credit: after [calculateScore], an answer whose
    question exists holds either that question's points (flagged correct)
    or 0 (flagged wrong), [correctAnswers] is the number of such answers
    flagged correct and [wrongAnswers] the number flagged wrong. *)
Theorem calculateScore_full_marks_or_nothing this contestQuestions now :
  let p := (calculateScore this contestQuestions now).1 in
  Forall (fun a =>
            forall q, contestQuestions !! questionIndex a = Some q ->
              pointsEarned a = if answerIsCorrect a then points q else 0%nat)
    (answers p)
  /\ correctAnswers p
     = length (filter (graded_correct contestQuestions) (answers p))
  /\ wrongAnswers p
     = length (filter (graded_wrong contestQuestions) (answers p)).
Proof.
  unfold calculateScore.
  pose proof (gradeAnswers_flags contestQuestions (answers this)
                (mkTally 0 0 0)) as H.
  destruct (gradeAnswers contestQuestions (mkTally 0 0 0) (answers this))
    as [t graded].
  cbn [fst snd correctCount wrongCount] in H.
  destruct H as (Hc & Hw & Hp). cbn. auto.
Qed.

Lemma calculateScore_full_marks_or_nothing_witness :
  let this := mkParticipation 1 7 0 None
                [mkAnswer 0 [0; 2]%nat false 0; mkAnswer 0 [1%nat] false 0]
                0 2 0 0 None false 0 in
  let p := (calculateScore this [q_demo] 10).1 in
  (pointsEarned <$> answers p) = [3; 0]%nat
  /\ correctAnswers p = 1%nat /\ wrongAnswers p = 1%nat.
Proof.
  intros this p.
  destruct (calculateScore_full_marks_or_nothing this [q_demo] 10)
    as (_ & Hc & Hw).
  split; [reflexivity|]. split; [exact Hc|exact Hw].
Defined.


(** ** Joining, continued *)

Lemma unique_index_snoc l uid cid total now :
  unique_index l ->
  list_find (is_participation_of uid cid) l = None ->
  unique_index (l ++ [new_participation uid cid total now]).
Proof.
  unfold unique_index. intros Huniq Hnone.
  rewrite fmap_app. apply NoDup_app. split; [done|]. split.
  - intros key Hin Hnew. apply list_elem_of_singleton in Hnew. subst key.
    apply list_elem_of_fmap in Hin as (q & Hkey & Hq).
    apply list_find_None in Hnone. rewrite Forall_forall in Hnone.
    apply (Hnone q Hq). cbn in Hkey. injection Hkey as -> ->. by split.
  - apply NoDup_singleton.
Qed.

(** X5.  A join keeps the participations unique per (user, contest): it
    leaves the existing participations in place, adds at most one at the
    end, never one the caller already has, and does not touch any other
    contest. *)
Theorem joinContest_keeps_unique_index s user id now createdAt :
  unique_index (participations s) ->
  let o := run (joinContest user id now createdAt) s in
  unique_index (participations (final o))
  /\ participations s `prefix_of` participations (final o)
  /\ (length (participations (final o)) <= S (length (participations s)))%nat
  /\ ((exists p, p ∈ participations s
                 /\ is_participation_of (user_id user) id p) ->
      final o = s)
  /\ forall id', id' <> id -> contests (final o) !! id' = contests s !! id'.
Proof.
  intros Huniq o. subst o. rewrite joinContest_run.
  assert (unique_index (participations s)
          /\ participations s `prefix_of` participations s
          /\ (length (participations s) <= S (length (participations s)))%nat
          /\ ((exists p, p ∈ participations s
                         /\ is_participation_of (user_id user) id p) -> s = s)
          /\ forall id', id' <> id -> contests s !! id' = contests s !! id')
    as Hsame by (repeat split; [done|done|lia]).
  destruct (contests s !! id) as [contest|]; [|exact Hsame].
  destruct (negb (isActive contest)); [exact Hsame|].
  destruct (vip_only contest (role user)); [exact Hsame|].
  destruct (list_find _ (participations s)) as [?|] eqn:Hfind; [exact Hsame|].
  destruct (now <? startTime contest); [exact Hsame|].
  destruct (now >? endTime contest); [exact Hsame|].
  destruct (bool_decide (status contest <> ONGOING)); [exact Hsame|].
  destruct (maxParticipants contest <=? currentParticipants contest)%nat;
    [exact Hsame|].
  assert (~ exists p, p ∈ participations s
                      /\ is_participation_of (user_id user) id p) as Hnew.
  { intros (p & Hp & Hof). apply list_find_None in Hfind.
    rewrite Forall_forall in Hfind. by apply (Hfind p). }
  cbv zeta. destruct (presave_ok _); cbn [final participations contests];
    (split; [by apply unique_index_snoc|]);
    (split; [by apply prefix_app_r|]);
    (split; [rewrite length_app; cbn; lia|]);
    (split; [done|]); intros id' Hne; [|done].
  by rewrite lookup_insert_ne.
Qed.

Lemma quiz_store_full_unique : unique_index (participations quiz_store_full).
Proof.
  unfold unique_index. vm_compute. repeat constructor.
  intros Hin. by apply elem_of_nil in Hin.
Qed.

Lemma joinContest_keeps_unique_index_witness :
  unique_index (participations quiz_store_full)
  /\ unique_index
       (participations (final (run (joinContest bob 7 150 150) quiz_store_full)))
  /\ final (run (joinContest alice 7 150 150) quiz_store_full) = quiz_store_full.
Proof.
  split; [exact quiz_store_full_unique|].
  destruct (joinContest_keeps_unique_index quiz_store_full bob 7 150 150
              quiz_store_full_unique) as (Hu & _).
  split; [exact Hu|].
  destruct (joinContest_keeps_unique_index quiz_store_full alice 7 150 150
              quiz_store_full_unique) as (_ & _ & _ & Hsame & _).
  apply Hsame. eexists. split; [apply list_elem_of_here|]. split; reflexivity.
Defined.

(** X6.  After a join has succeeded, a further join of the same user to
    the same contest, at whatever time, is answered "already joined" and
    changes nothing. *)
Theorem joinContest_twice s user id now createdAt now' createdAt' r :
  response (run (joinContest user id now createdAt) s) = Some r ->
  success r = true ->
  let joined := final (run (joinContest user id now createdAt) s) in
  let o := run (joinContest user id now' createdAt') joined in
  final o = joined
  /\ response o = Some (mkReply 400 false AlreadyJoinedContest)
  /\ rejected o = false.
Proof.
  intros Hr Hok joined o. subst joined o.
  pose proof (joinContest_run s user id now createdAt) as Hrun.
  set (o1 := run (joinContest user id now createdAt) s) in *.
  assert (forall m, o1 = mkOutcome s (Some (mkReply 400 false m)) false -> False)
    as Hrej.
  { intros m Heq. rewrite Heq in Hr. injection Hr as <-. discriminate Hok. }
  destruct (contests s !! id) as [contest|] eqn:Hfound; [|by destruct (Hrej _ Hrun)].
  destruct (isActive contest) eqn:Hactive; [|by destruct (Hrej _ Hrun)].
  cbn [negb] in Hrun.
  destruct (vip_only contest (role user)) eqn:Hvip; [by destruct (Hrej _ Hrun)|].
  destruct (list_find _ (participations s)) as [?|] eqn:Hfind;
    [by destruct (Hrej _ Hrun)|].
  destruct (now <? startTime contest); [by destruct (Hrej _ Hrun)|].
  destruct (now >? endTime contest); [by destruct (Hrej _ Hrun)|].
  destruct (bool_decide (status contest <> ONGOING)); [by destruct (Hrej _ Hrun)|].
  destruct (maxParticipants contest <=? currentParticipants contest)%nat;
    [by destruct (Hrej _ Hrun)|].
  cbv zeta in Hrun.
  destruct (presave_ok _);
    [|rewrite Hrun in Hr; injection Hr as <-; discriminate Hok].
  rewrite Hrun. cbn [final]. rewrite joinContest_run.
  cbn [contests participations]. rewrite lookup_insert_eq.
  set (contest' := set_currentParticipants contest _).
  assert (isActive contest' = true) as -> by exact Hactive.
  assert (vip_only contest' (role user) = false) as -> by exact Hvip.
  cbn [negb].
  assert (is_Some (list_find (is_participation_of (user_id user) id)
                     (participations s ++
                      [new_participation (user_id user) id
                         (length (questions contest)) createdAt])))
    as [found ->]; [|done].
  eapply list_find_elem_of; [apply elem_of_app; right;
                             apply list_elem_of_here|].
  split; reflexivity.
Qed.

Lemma joinContest_twice_witness :
  let o := run (joinContest alice 7 199 199) quiz_store_full in
  final o = quiz_store_full
  /\ response o = Some (mkReply 400 false AlreadyJoinedContest).
Proof.
  destruct (joinContest_twice quiz_store alice 7%nat 150 150 199 199
              (mkReply 201 true
                 (JoinedContest (new_participation 1 7 1 150))))
    as (Hs & Hr & _).
  - reflexivity.
  - reflexivity.
  - split; [exact Hs|exact Hr].
Defined.

(** ** Submitting, continued *)

Lemma res_json_store code ok m w : store (res_json code ok m w).2 = store w.
Proof. unfold res_json. by destruct (sent w). Qed.

Lemma forEach_from_store {A} (f : A -> nat -> Handler unit) :
  (forall x i w, store (f x i w).2 = store w) ->
  forall l i w, store (forEach_from f i l w).2 = store w.
Proof.
  intros Hf l. induction l as [|x l IH]; intros i w; [done|].
  cbn [forEach_from]. unfold mbind, Handler_bind.
  specialize (Hf x i w). destruct (f x i w) as [[[]|e] w']; cbn in *.
  - by rewrite IH.
  - done.
Qed.

Lemma validateAnswer_store contest a index w :
  store (validateAnswer contest a index w).2 = store w.
Proof.
  unfold validateAnswer.
  destruct (questions contest !! in_questionIndex a) as [question|];
    [|apply res_json_store].
  unfold mbind, Handler_bind.
  pose proof (forEach_from_store
                (fun optionIndex (_ : nat) =>
                   if (optionIndex <? 0)%nat
                      || (length (options question) <=? optionIndex)%nat
                   then res_json 400 false
                          (InvalidOptionIndex optionIndex (index + 1))
                   else mret tt)) as Hopts.
  unfold forEach.
  match goal with |- context [forEach_from ?f 0%nat ?l w] =>
    specialize (Hopts (fun x i w => ltac:(
      cbv beta; destruct (_ || _); [apply res_json_store|reflexivity])) l 0%nat w);
    destruct (forEach_from f 0%nat l w) as [[[]|e] w'] end;
    cbn in *; [|done].
  repeat case_match; rewrite ?res_json_store; done.
Qed.

Lemma validation_store contest l w :
  store (forEach (validateAnswer contest) l w).2 = store w.
Proof. apply forEach_from_store. intros. apply validateAnswer_store. Qed.

(** What one submission does, by cases on the guards and on how the
    validation loop ends. *)
Lemma submitContest_run s user id answers now gradedAt :
  run (submitContest user id answers now gradedAt) s =
  match contests s !! id with
  | None => mkOutcome s (Some (mkReply 400 false ContestNotFound)) false
  | Some contest =>
    match list_find (is_participation_of (user_id user) id)
            (participations s) with
    | None => mkOutcome s (Some (mkReply 400 false MustJoinBeforeSubmitting)) false
    | Some (i, p) =>
      if isCompleted p
      then mkOutcome s (Some (mkReply 400 false AlreadySubmitted)) false
      else if now >? endTime contest
      then mkOutcome s (Some (mkReply 400 false ContestEndedCannotSubmit)) false
      else if negb (length answers =? length (questions contest))%nat
      then mkOutcome s
             (Some (mkReply 400 false (MustAnswerAll (length (questions contest)))))
             false
      else
        let v := forEach (validateAnswer contest) answers (mkWorld s None) in
        let scored := calculateScore p (questions contest) gradedAt in
        let graded := calculateTimeSpent scored.1 in
        let s' := mkStore (contests s) (<[i := graded]> (participations s)) in
        match v.1, sent v.2 with
        | Normal _, None =>
            mkOutcome s'
              (Some (mkReply 200 true
                       (AnswersSubmitted scored.2 (length (questions contest))
                          (submittedAt graded) (timeSpent graded))))
              false
        | Normal _, Some r => mkOutcome s' (Some r) true
        | Throw _, None =>
            mkOutcome s (Some (mkReply 200 false InternalServerError)) false
        | Throw _, Some r => mkOutcome s (Some r) true
        end
    end
  end.
Proof.
  unfold submitContest. unfold_handler.
  destruct (contests s !! id) as [contest|]; [|reflexivity]. handler_step.
  destruct (list_find _ (participations s)) as [[i p]|]; [|reflexivity].
  handler_step.
  destruct (isCompleted p); [reflexivity|].
  destruct (now >? endTime contest); [reflexivity|].
  destruct (negb _); [reflexivity|].
  pose proof (validation_store contest answers (mkWorld s None)) as Hst.
  destruct (forEach (validateAnswer contest) answers (mkWorld s None))
    as [[[]|e] [st snt]]; cbn in Hst; subst st.
  - destruct (calculateScore p (questions contest) gradedAt) as [graded t].
    cbn. destruct snt; reflexivity.
  - cbn. destruct snt; reflexivity.
Qed.

Lemma submitContest_effect s user id answers now gradedAt :
  let o := run (submitContest user id answers now gradedAt) s in
  final o = s
  \/ exists contest i p,
       contests s !! id = Some contest
       /\ participations s !! i = Some p
       /\ is_participation_of (user_id user) id p
       /\ isCompleted p = false
       /\ now <= endTime contest
       /\ length answers = length (questions contest)
       /\ final o
          = mkStore (contests s)
              (<[i := calculateTimeSpent
                        (calculateScore p (questions contest) gradedAt).1]>
                 (participations s)).
Proof.
  intros o. subst o. rewrite submitContest_run.
  destruct (contests s !! id) as [contest|]; [|by left].
  destruct (list_find _ (participations s)) as [[i p]|] eqn:Hfind; [|by left].
  apply list_find_Some in Hfind as (Hi & Hp & _).
  destruct (isCompleted p) eqn:Hdone; [by left|].
  destruct (Z.gtb_spec now (endTime contest)); [by left|].
  destruct (Nat.eqb_spec (length answers) (length (questions contest)));
    [|by left].
  cbn [negb]. cbv zeta.
  destruct (forEach (validateAnswer contest) answers (mkWorld s None))
    as [[[]|err] [st [r|]]]; cbn; try (by left);
    right; exists contest, i, p; split_and!; try done; lia.
Qed.

(** X7.  A submission writes one thing at most: whatever the sheet and
    the reply, either the store is left as it was, or the caller had joined,
    had not yet submitted, was in time and handed in as many answers as
    there are questions, and the only change is that the caller's
    participation is replaced by its graded version.  No contest and no
    other participation is ever touched. *)
Theorem submitContest_only_write s user id answers now gradedAt :
  let o := run (submitContest user id answers now gradedAt) s in
  (final o = s
   \/ exists contest i p,
        contests s !! id = Some contest
        /\ participations s !! i = Some p
        /\ is_participation_of (user_id user) id p
        /\ isCompleted p = false
        /\ now <= endTime contest
        /\ length answers = length (questions contest)
        /\ final o
           = mkStore (contests s)
               (<[i := calculateTimeSpent
                         (calculateScore p (questions contest) gradedAt).1]>
                  (participations s)))
  /\ contests (final o) = contests s
  /\ length (participations (final o)) = length (participations s)
  /\ forall j q,
       participations s !! j = Some q ->
       ~ is_participation_of (user_id user) id q ->
       participations (final o) !! j = Some q.
Proof.
  intros o. pose proof (submitContest_effect s user id answers now gradedAt)
    as Heffect.
  fold o in Heffect. split; [exact Heffect|].
  destruct Heffect as [->|(contest & i & p & _ & Hi & Hp & _ & _ & _ & ->)];
    [done|].
  cbn [contests participations]. split; [done|].
  split; [apply length_insert|].
  intros j q Hj Hq. rewrite list_lookup_insert_ne; [done|].
  intros ->. rewrite Hi in Hj. by injection Hj as ->.
Qed.

(** X8.  A sheet of the right length whose answers are all well formed,
    handed in on time by a participant who has not yet submitted, is
    accepted: the reply is the 200 summary and the participation is stored
    graded and completed.  What is graded is the answer list already stored
    in the participation - the sheet itself is only validated - so a
    participation as [joinContest] created it (no stored answers) ends with
    score 0, no correct and no wrong answer, whatever was handed in. *)
Theorem submitContest_accepts_well_formed
    s user id contest i p sheet now gradedAt :
  contests s !! id = Some contest ->
  unique_index (participations s) ->
  participations s !! i = Some p ->
  is_participation_of (user_id user) id p ->
  isCompleted p = false ->
  now <= endTime contest ->
  length sheet = length (questions contest) ->
  Forall (answer_well_formed contest) sheet ->
  let o := run (submitContest user id sheet now gradedAt) s in
  let scored := calculateScore p (questions contest) gradedAt in
  let graded := calculateTimeSpent scored.1 in
  response o
  = Some (mkReply 200 true
            (AnswersSubmitted scored.2 (length (questions contest))
               (Some gradedAt) (timeSpent graded)))
  /\ final o = mkStore (contests s) (<[i := graded]> (participations s))
  /\ rejected o = false
  /\ isCompleted graded = true
  /\ (answers p = [] ->
      scored.2 = mkTally 0 0 0 /\ score graded = 0%nat /\ answers graded = []).
Proof.
  intros Hfound Huniq Hi Hp Hopen Htime Hlen Hwf o scored graded.
  subst o scored graded.
  pose proof (findOne_unique _ _ _ _ _ Huniq Hi Hp) as Hfind.
  rewrite submitContest_run, Hfound, Hfind, Hopen.
  assert ((now >? endTime contest) = false) as ->
    by (rewrite Z.gtb_ltb; apply Z.ltb_ge; lia).
  rewrite Hlen, Nat.eqb_refl. cbn [negb]. cbv zeta.
  unfold forEach. rewrite (forEach_well_formed _ _ _ _ Hwf). cbn [fst snd sent].
  unfold calculateScore, calculateTimeSpent.
  destruct (gradeAnswers (questions contest) (mkTally 0 0 0) (answers p))
    as [t gradedAnswers] eqn:Hgrade.
  cbn. split_and!; try done.
  intros Hnil. rewrite Hnil in Hgrade. cbn in Hgrade.
  by injection Hgrade as <- <-.
Qed.

Lemma submitContest_accepts_well_formed_witness :
  let o := run (submitContest alice 7 [mkAnswerInput 0 [0%nat]] 160 161)
             quiz_store_full in
  response o
  = Some (mkReply 200 true (AnswersSubmitted (mkTally 0 0 0) 1 (Some 161) 0))
  /\ rejected o = false.
Proof.
  destruct (submitContest_accepts_well_formed quiz_store_full alice 7%nat
              (set_currentParticipants quiz 1) 0%nat
              (mkParticipation 1 7 150 None [] 0 1 0 0 None false 0)
              [mkAnswerInput 0 [0%nat]] 160 161)
    as (Hr & _ & Hrej & _).
  - reflexivity.
  - exact quiz_store_full_unique.
  - reflexivity.
  - split; reflexivity.
  - reflexivity.
  - simpl. lia.
  - reflexivity.
  - repeat constructor. exists quiz_question. split; [reflexivity|].
    split; [repeat constructor|reflexivity].
  - split; [exact Hr|exact Hrej].
Defined.

Lemma validateAnswer_after_reply contest a index st r :
  questions contest !! in_questionIndex a = None ->
  validateAnswer contest a index (mkWorld st (Some r))
  = (Throw ERR_HTTP_HEADERS_SENT, mkWorld st (Some r)).
Proof. intros Hq. unfold validateAnswer. by rewrite Hq. Qed.

(** X9.  With two answers naming questions that do not exist (the others
    well formed), the second 400 hits a response already sent: the loop is
    left by the exception, nothing is graded or saved, the client still holds
    the first 400, and the handler's promise rejects. *)
Theorem submitContest_two_unknown_questions
    s user id contest i p before bad1 middle bad2 after now gradedAt :
  contests s !! id = Some contest ->
  unique_index (participations s) ->
  participations s !! i = Some p ->
  is_participation_of (user_id user) id p ->
  isCompleted p = false ->
  now <= endTime contest ->
  length (before ++ bad1 :: middle ++ bad2 :: after)
  = length (questions contest) ->
  Forall (answer_well_formed contest) before ->
  questions contest !! in_questionIndex bad1 = None ->
  Forall (answer_well_formed contest) middle ->
  questions contest !! in_questionIndex bad2 = None ->
  let o := run (submitContest user id
                  (before ++ bad1 :: middle ++ bad2 :: after) now gradedAt) s in
  final o = s
  /\ response o
     = Some (mkReply 400 false (InvalidQuestionIndex (in_questionIndex bad1)))
  /\ rejected o = true.
Proof.
  intros Hfound Huniq Hi Hp Hopen Htime Hlen Hbefore Hbad1 Hmiddle Hbad2 o.
  subst o.
  pose proof (findOne_unique _ _ _ _ _ Huniq Hi Hp) as Hfind.
  rewrite submitContest_run, Hfound, Hfind, Hopen.
  assert ((now >? endTime contest) = false) as ->
    by (rewrite Z.gtb_ltb; apply Z.ltb_ge; lia).
  rewrite Hlen, Nat.eqb_refl. cbn [negb]. cbv zeta.
  unfold forEach. rewrite forEach_from_app.
  rewrite (forEach_well_formed _ _ _ _ Hbefore).
  cbn [forEach_from]. unfold mbind, Handler_bind.
  rewrite (validateAnswer_unknown_question _ _ _ _ Hbad1).
  rewrite forEach_from_app.
  rewrite (forEach_well_formed _ _ _ _ Hmiddle).
  cbn [forEach_from]. unfold mbind, Handler_bind.
  rewrite (validateAnswer_after_reply _ _ _ _ _ Hbad2).
  done.
Qed.

Lemma submitContest_two_unknown_questions_witness :
  let o := run (submitContest alice 7
                  [mkAnswerInput 5 [0%nat]; mkAnswerInput 6 [0%nat]] 160 161)
             quiz_two_store in
  final o = quiz_two_store
  /\ response o = Some (mkReply 400 false (InvalidQuestionIndex 5))
  /\ rejected o = true.
Proof.
  apply (submitContest_two_unknown_questions quiz_two_store alice 7%nat
           quiz_two 0%nat
           (mkParticipation 1 7 150 None [] 0 2 0 0 None false 0)
           [] (mkAnswerInput 5 [0%nat]) [] (mkAnswerInput 6 [0%nat]) []
           160 161).
  - reflexivity.
  - unfold unique_index. vm_compute. repeat constructor.
    intros Hin. by apply elem_of_nil in Hin.
  - reflexivity.
  - split; reflexivity.
  - reflexivity.
  - simpl. lia.
  - reflexivity.
  - constructor.
  - reflexivity.
  - constructor.
  - reflexivity.
Defined.

(** ** Ranking, continued *)

Lemma filter_none {A} (P : A -> Prop) `{!forall x, Decision (P x)} (l : list A) :
  Forall (fun x => ~ P x) l -> filter P l = [].
Proof.
  induction 1 as [|x l Hx Hl IH]; [done|].
  rewrite filter_cons. by rewrite decide_False, IH.
Qed.

Lemma filter_all {A} (P : A -> Prop) `{!forall x, Decision (P x)} (l : list A) :
  Forall P l -> filter P l = l.
Proof.
  induction 1 as [|x l Hx Hl IH]; [done|].
  rewrite filter_cons. by rewrite decide_True, IH.
Qed.

Lemma ranking_le_not_ahead p q : ranking_le p q -> ~ strictly_ahead p q.
Proof.
  unfold ranking_le, strictly_ahead.
  intros [Hlt|[Heq Hd]] [Hlt'|[Heq' Hd']]; try lia.
  destruct (submittedAt p), (submittedAt q); simpl in *; try done; lia.
Qed.

Lemma ranking_le_ahead_or_tie q p :
  ranking_le q p ->
  is_Some (submittedAt q) -> is_Some (submittedAt p) ->
  strictly_ahead p q \/ exact_tie p q.
Proof.
  unfold ranking_le, strictly_ahead, exact_tie.
  intros [Hlt|[Heq Hd]] [a Ha] [b Hb]; [by left; left|].
  rewrite Ha, Hb in *. simpl in *.
  destruct (decide (a = b)) as [->|Hne]; [by right|].
  left. right. split; [done|lia].
Qed.

(** The number of documents ahead of the one at position [i] of a sorted
    list is at most [i], and exactly [i] when all those before it are
    strictly ahead. *)
Lemma ahead_in_sorted sorted i p :
  StronglySorted ranking_le sorted ->
  sorted !! i = Some p ->
  (length (filter (strictly_ahead p) sorted) <= i)%nat
  /\ (Forall (strictly_ahead p) (take i sorted) ->
      length (filter (strictly_ahead p) sorted) = i).
Proof.
  intros Hsorted Hi.
  pose proof (lookup_lt_Some _ _ _ Hi) as Hlt.
  assert (filter (strictly_ahead p) sorted
          = filter (strictly_ahead p) (take i sorted)) as ->.
  { rewrite <- (take_drop_middle _ _ _ Hi) in Hsorted.
    apply StronglySorted_app in Hsorted as (_ & _ & Htail).
    apply StronglySorted_cons in Htail as [Htail _].
    rewrite <- (take_drop_middle _ _ _ Hi) at 1.
    rewrite filter_app, filter_cons.
    rewrite decide_False by apply strictly_ahead_irrefl.
    rewrite (filter_none _ (drop (S i) sorted)); [by rewrite app_nil_r|].
    eapply Forall_impl; [exact Htail|]. intros q. apply ranking_le_not_ahead. }
  assert (length (take i sorted) = i) as Hlen by (apply length_take_le; lia).
  split.
  - rewrite <- Hlen at 2. apply length_filter.
  - intros Hall. by rewrite filter_all.
Qed.

(** X10.  The rank reported to a caller never exceeds the caller's place
    on the public board, and the two agree when every completed
    participation of the contest carries a submitted-at and none other ties
    with the caller's in both score and submitted-at.  (With an exact tie
    both tied callers are told the better rank, while the board lists them
    one after the other.) *)
Theorem userRank_vs_board_place s user id contest lb userRank i e :
  contests s !! id = Some contest ->
  may_view contest (Some user) ->
  unique_index (participations s) ->
  response (run (contestLeaderboard (Some user) id) s)
  = Some (mkReply 200 true (Leaderboard lb userRank)) ->
  lb !! i = Some e ->
  userId e = user_id user ->
  exists r,
    userRank = Some r
    /\ rank e = Some (i + 1)%nat
    /\ (r <= i + 1)%nat
    /\ ((forall q, q ∈ participations s -> completed_in id q ->
           is_Some (submittedAt q)) ->
        (forall q, q ∈ participations s -> completed_in id q ->
           exact_tie e q -> userId q = user_id user) ->
        r = (i + 1)%nat).
Proof.
  intros Hfound Hview Huniq Hresp Hi Hmine.
  rewrite (contestLeaderboard_run _ _ _ _ Hfound Hview) in Hresp.
  cbn [response] in Hresp. injection Hresp as <- <-.
  set (board := filter (completed_in id) (participations s)) in *.
  apply assign_ranks_lookup in Hi as (p & Hp & ->).
  apply lookup_take_Some in Hp as [Hp _].
  cbn [userId set_rank rank] in *.
  assert (p ∈ board) as Hin.
  { rewrite <- (mongo_sort_Permutation board). by eapply list_elem_of_lookup_2. }
  apply list_elem_of_filter in Hin as [[Hc Hdone] Hin].
  assert (is_completed_participation_of (user_id user) id p) as Hof by done.
  unfold reported_rank.
  destruct (list_find_elem_of _ _ _ Hin Hof) as [[k up] Hfind].
  rewrite Hfind. apply list_find_Some in Hfind as (Hk & (Hu & Hc' & _) & _).
  apply list_elem_of_lookup_2 in Hk.
  assert (up = p) as ->
    by (apply (unique_index_same_key (participations s)); congruence).
  assert (length (filter (fun q => completed_in id q /\ strictly_ahead p q)
                    (participations s))
          = length (filter (strictly_ahead p) (mongo_sort board))) as ->.
  { rewrite (mongo_sort_Permutation board). unfold board.
    rewrite list_filter_filter. f_equal. apply list_filter_iff. tauto. }
  destruct (ahead_in_sorted _ _ _ (mongo_sort_sorted board) Hp) as [Hle Heq].
  eexists. split; [reflexivity|]. split; [done|]. split; [lia|].
  intros Hdated Hnotie. rewrite Heq; [done|].
  assert (NoDup (mongo_sort board)) as Hnd.
  { rewrite mongo_sort_Permutation. apply NoDup_filter.
    by apply NoDup_fmap_1 in Huniq. }
  apply Forall_forall. intros q Hq.
  apply list_elem_of_lookup in Hq as [j Hj].
  apply lookup_take_Some in Hj as [Hj Hji].
  assert (q ∈ board) as Hqin.
  { rewrite <- (mongo_sort_Permutation board). by eapply list_elem_of_lookup_2. }
  apply list_elem_of_filter in Hqin as [Hqc Hqin].
  assert (ranking_le q p) as Hqp.
  { pose proof (mongo_sort_sorted board) as Hsorted.
    rewrite <- (take_drop_middle _ _ _ Hp) in Hsorted.
    eapply StronglySorted_app_1_elem_of; [exact Hsorted| |apply list_elem_of_here].
    eapply list_elem_of_lookup_2. apply lookup_take_Some. eauto. }
  assert (is_Some (submittedAt q)) as Hdq by (by apply Hdated).
  assert (is_Some (submittedAt p)) as Hdp by (by apply Hdated).
  destruct (ranking_le_ahead_or_tie q p Hqp Hdq Hdp) as [Hahead|Htie]; [done|].
  exfalso. assert (userId q = user_id user) as Hqu
    by (apply Hnotie; [done|done|exact Htie]).
  assert (q = p).
  { destruct Hqc as [Hqc _].
    apply (unique_index_same_key (participations s)); congruence. }
  subst q. assert (j = i) by (by eapply NoDup_lookup). lia.
Qed.

Lemma userRank_vs_board_place_witness :
  exists lb e,
    response (run (contestLeaderboard (Some bob) 7) tied_store)
    = Some (mkReply 200 true (Leaderboard lb (Some 1%nat)))
    /\ lb !! 1%nat = Some e /\ userId e = user_id bob
    /\ rank e = Some 2%nat.
Proof.
  eexists _, _. split; [vm_compute; reflexivity|].
  split; [reflexivity|]. split; [reflexivity|].
  assert (may_view quiz3 (Some bob)) as Hview by (intros H; discriminate H).
  assert (unique_index (participations tied_store)) as Huniq.
  { unfold unique_index. vm_compute.
    repeat (constructor;
            [rewrite ?elem_of_cons, elem_of_nil; intuition congruence|]).
    constructor. }
  destruct (userRank_vs_board_place tied_store bob 7%nat quiz3 _ _ 1%nat _
              eq_refl Hview Huniq eq_refl eq_refl eq_refl)
    as (r & _ & Hrank & _).
  exact Hrank.
Defined.

(** ** The store across requests *)

Lemma joinContest_transition s user id now createdAt :
  transition s (final (run (joinContest user id now createdAt) s)).
Proof.
  rewrite joinContest_run.
  destruct (contests s !! id) as [contest|] eqn:Hfound; [|constructor].
  destruct (negb (isActive contest)); [constructor|].
  destruct (vip_only contest (role user)); [constructor|].
  destruct (list_find _ (participations s)) as [?|] eqn:Hfind; [constructor|].
  destruct (now <? startTime contest); [constructor|].
  destruct (now >? endTime contest); [constructor|].
  destruct (bool_decide (status contest <> ONGOING)); [constructor|].
  destruct (Nat.leb_spec (maxParticipants contest) (currentParticipants contest));
    [constructor|].
  cbv zeta.
  destruct (presave_ok (set_currentParticipants contest _)) eqn:Hok; cbn [final].
  - by apply seat_taken.
  - by apply seat_uncounted with (c := contest).
Qed.

Lemma graded_same_key p contestQuestions gradedAt :
  let graded := calculateTimeSpent (calculateScore p contestQuestions gradedAt).1 in
  userId graded = userId p /\ contestId graded = contestId p.
Proof.
  unfold calculateScore, calculateTimeSpent.
  by destruct (gradeAnswers contestQuestions (mkTally 0 0 0) (answers p)).
Qed.

Lemma submitContest_transition s user id sheet now gradedAt :
  transition s (final (run (submitContest user id sheet now gradedAt) s)).
Proof.
  destruct (submitContest_effect s user id sheet now gradedAt)
    as [->|(contest & i & p & _ & Hi & _ & _ & _ & _ & ->)]; [constructor|].
  destruct (graded_same_key p (questions contest) gradedAt).
  by apply participation_graded with (p := p).
Qed.

(** What a question request can write: nothing, or the contest with another
    question list that passes the pre-save hook. *)
Lemma question_route_effect s req id now :
  let o := run (question_route req id now) s in
  final o = s
  \/ exists contest qs,
       contests s !! id = Some contest
       /\ now < startTime contest
       /\ presave_ok (set_questions contest qs) = true
       /\ final o
          = mkStore (<[id := set_questions contest qs]> (contests s))
              (participations s).
Proof.
  intros o. subst o.
  destruct req as [b|questionIndex b|questionIndex]; simpl;
    [unfold addQuestion|unfold editQuestion|unfold deleteQuestion];
    unfold_handler;
    (destruct (contests s !! id) as [contest|]; [|left; reflexivity]); handler_step.
  - destruct (Z.geb_spec now (startTime contest)); [left; reflexivity|].
    destruct (bool_decide (in_type b = true_false) && _);
      [left; reflexivity|].
    destruct (bool_decide (in_type b = single_select) && _);
      [left; reflexivity|].
    destruct (length (List.filter isCorrect (in_options b)) =? 0)%nat;
      [left; reflexivity|].
    handler_step.
    destruct (presave_ok (set_questions contest _)) eqn:Hok; [|left; reflexivity].
    right. eexists contest, _. split_and!; [done|lia|exact Hok|reflexivity].
  - destruct (index_out_of_range _ _); [left; reflexivity|].
    destruct (Z.geb_spec now (startTime contest)); [left; reflexivity|].
    handler_step.
    destruct (presave_ok (set_questions contest _)) eqn:Hok; [|left; reflexivity].
    right. eexists contest, _. split_and!; [done|lia|exact Hok|reflexivity].
  - destruct (index_out_of_range _ _); [left; reflexivity|].
    destruct (Z.geb_spec now (startTime contest)); [left; reflexivity|].
    handler_step.
    destruct (presave_ok (set_questions contest _)) eqn:Hok; [|left; reflexivity].
    right. eexists contest, _. split_and!; [done|lia|exact Hok|reflexivity].
Qed.

Lemma serve_transition r s : transition s (serve r s).
Proof.
  destruct r as [user id now createdAt|user id sheet now gradedAt
                 |req id now|id status|id]; cbn [serve].
  - apply joinContest_transition.
  - apply submitContest_transition.
  - destruct (question_route_effect s req id now)
      as [->|(contest & qs & Hfound & _ & Hok & ->)]; [constructor|].
    by apply contest_saved with (c := contest).
  - unfold changeStatus. destruct (status_of_name status) as [st|];
      [|constructor].
    destruct (contests s !! id) as [contest|] eqn:Hfound; [|constructor].
    cbv zeta. destruct (presave_ok (set_status contest st)) eqn:Hok;
      [|constructor].
    by apply contest_saved with (c := contest).
  - unfold deleteContest.
    destruct (contests s !! id) as [contest|]; [|constructor]. cbv zeta.
    destruct (Nat.ltb_spec 0 (length (filter (in_contest id) (participations s))));
      [constructor|].
    apply contest_deleted. unfold participant_count. lia.
Qed.

Lemma participant_count_insert cid l i p p' :
  l !! i = Some p ->
  contestId p' = contestId p ->
  participant_count cid (<[i := p']> l) = participant_count cid l.
Proof.
  intros Hi Hc. unfold participant_count.
  rewrite insert_take_drop by (by eapply lookup_lt_Some).
  rewrite <- (take_drop_middle l i p Hi) at 3.
  rewrite !filter_app, !filter_cons, !length_app.
  destruct (decide (in_contest cid p)) as [Hp|Hp],
           (decide (in_contest cid p')) as [Hp'|Hp'];
    unfold in_contest in *; try done; congruence.
Qed.

Lemma participant_count_zero cid l p :
  participant_count cid l = 0%nat -> p ∈ l -> contestId p <> cid.
Proof.
  unfold participant_count. intros Hzero Hp Hc.
  apply length_zero_iff_nil in Hzero.
  by apply (filter_nil_not_elem_of (in_contest cid) l p).
Qed.

Lemma transition_referential_integrity s s' :
  transition s s' -> referential_integrity s -> referential_integrity s'.
Proof.
  unfold referential_integrity.
  intros [|id c c' Hc _ _ _|uid id c total createdAt Hc _ _ _
          |uid id c total createdAt Hc _ _|i p p' Hi _ Hkey|id Hzero] Hinv q;
    cbn [contests participations]; [by auto|..].
  - intros Hq. apply lookup_insert_is_Some'. right. by apply Hinv.
  - intros [Hq|Hq]%elem_of_app; apply lookup_insert_is_Some'.
    + right. by apply Hinv.
    + left. apply list_elem_of_singleton in Hq. by subst q.
  - intros [Hq|Hq]%elem_of_app; [by apply Hinv|].
    apply list_elem_of_singleton in Hq. subst q. cbn. by rewrite Hc.
  - intros Hq. apply list_elem_of_lookup in Hq as [j Hj].
    apply list_lookup_insert_Some in Hj as [(-> & <- & _)|[_ Hj]].
    + rewrite Hkey. apply Hinv. by eapply list_elem_of_lookup_2.
    + apply Hinv. by eapply list_elem_of_lookup_2.
  - intros Hq. rewrite lookup_delete_ne; [by apply Hinv|].
    intros ->. by apply (participant_count_zero _ _ q Hzero).
Qed.

Lemma transition_unique_index s s' :
  transition s s' ->
  unique_index (participations s) -> unique_index (participations s').
Proof.
  intros [|id c c' _ _ _ _|uid id c total createdAt _ Hnew _ _
          |uid id c total createdAt _ Hnew _|i p p' Hi Hu Hc|id _] Huniq;
    cbn [participations]; try done.
  - by apply unique_index_snoc.
  - by apply unique_index_snoc.
  - unfold unique_index in *. rewrite list_fmap_insert, list_insert_id; [done|].
    rewrite list_lookup_fmap, Hi. cbn. by rewrite Hu, Hc.
Qed.

Lemma presave_ok_set_currentParticipants c n :
  presave_ok (set_currentParticipants c n) = presave_ok c.
Proof. reflexivity. Qed.

Lemma transition_counters_consistent s s' :
  transition s s' -> counters_consistent s -> counters_consistent s'.
Proof.
  unfold counters_consistent.
  intros [|id c c' Hc Hok Hcur Hmax|uid id c total createdAt Hc Hnew Hfree Hok
          |uid id c total createdAt Hc _ Hbad|i p p' Hi _ Hkey|id Hzero]
    Hinv id' d; cbn [contests participations]; [by auto|..].
  - intros [[<- <-]|[Hne Hd]]%lookup_insert_Some; [|by apply Hinv].
    destruct (Hinv id c Hc) as (_ & Hcount & Hcap).
    split; [done|]. rewrite Hcur, Hmax. done.
  - rewrite participant_count_snoc. cbn [contestId new_participation].
    intros [[<- <-]|[Hne Hd]]%lookup_insert_Some.
    + destruct (Hinv id c Hc) as (_ & Hcount & _).
      rewrite decide_True by done. cbn. split; [done|]. lia.
    + destruct (Hinv id' d Hd) as (? & ? & ?).
      rewrite decide_False by done. split; [done|]. split; [lia|done].
  - destruct (Hinv id c Hc) as (Hok & _). congruence.
  - intros Hd. rewrite (participant_count_insert _ _ _ _ _ Hi Hkey).
    by apply Hinv.
  - intros [Hne Hd]%lookup_delete_Some. by apply Hinv.
Qed.

(** X11.  Whatever requests are served, in whatever order - joins,
    submissions, question edits, status changes, contest deletions - every
    participation keeps pointing at a stored contest: a contest that has
    participations is never deleted. *)
Theorem requests_keep_referential_integrity rs s :
  referential_integrity s -> referential_integrity (serve_all rs s).
Proof.
  revert s. induction rs as [|r rs IH]; intros s Hinv; [done|].
  cbn [serve_all]. apply IH.
  eapply transition_referential_integrity; [apply serve_transition|done].
Qed.

(** X12.  Whatever requests are served, no identity ever holds two
    participations of one contest. *)
Theorem requests_keep_unique_index rs s :
  unique_index (participations s) ->
  unique_index (participations (serve_all rs s)).
Proof.
  revert s. induction rs as [|r rs IH]; intros s Hinv; [done|].
  cbn [serve_all]. apply IH.
  eapply transition_unique_index; [apply serve_transition|done].
Qed.

(** X13.  From a store whose counters agree with its participations and
    whose contests pass the pre-save hook, joins, submissions, question
    edits, status changes and deletions in any order leave every
    [currentParticipants] equal to the number of participations of its
    contest and within [maxParticipants]. *)
Theorem requests_keep_counters_consistent rs s :
  counters_consistent s -> counters_consistent (serve_all rs s).
Proof.
  revert s. induction rs as [|r rs IH]; intros s Hinv; [done|].
  cbn [serve_all]. apply IH.
  eapply transition_counters_consistent; [apply serve_transition|done].
Qed.

Lemma quiz_store_integrity : referential_integrity quiz_store.
Proof. intros p Hp. by apply elem_of_nil in Hp. Qed.

Lemma requests_keep_referential_integrity_witness :
  referential_integrity quiz_store
  /\ referential_integrity (serve_all busy_day quiz_store)
  /\ is_Some (contests (serve_all busy_day quiz_store) !! 7%nat).
Proof.
  split; [exact quiz_store_integrity|].
  split; [|by vm_compute; eexists].
  apply requests_keep_referential_integrity. exact quiz_store_integrity.
Defined.

Lemma requests_keep_unique_index_witness :
  unique_index (participations quiz_store)
  /\ unique_index (participations (serve_all busy_day quiz_store)).
Proof.
  assert (unique_index (participations quiz_store)) as Huniq by constructor.
  split; [exact Huniq|].
  apply requests_keep_unique_index. exact Huniq.
Defined.

Lemma requests_keep_counters_consistent_witness :
  counters_consistent quiz_store
  /\ counters_consistent (serve_all busy_day quiz_store).
Proof.
  split; [exact quiz_store_consistent|].
  apply requests_keep_counters_consistent. exact quiz_store_consistent.
Defined.

(** ** Administration *)

(** X14.  [deleteContest] removes the contest exactly when no
    participation refers to it; otherwise it answers 400 and the store is
    as before.  It never touches a participation or another contest. *)
Theorem deleteContest_only_without_participants s id contest :
  contests s !! id = Some contest ->
  let r := (deleteContest id s).1 in
  let s' := (deleteContest id s).2 in
  participations s' = participations s
  /\ (forall id', id' <> id -> contests s' !! id' = contests s !! id')
  /\ (participant_count id (participations s) = 0%nat ->
      contests s' !! id = None /\ r = mkAdminReply 200 true ContestDeleted)
  /\ (participant_count id (participations s) <> 0%nat ->
      s' = s /\ r = mkAdminReply 400 false CannotDeleteWithParticipants).
Proof.
  intros Hfound r s'. subst r s'. unfold deleteContest, participant_count.
  rewrite Hfound. cbv zeta.
  destruct (Nat.ltb_spec 0 (length (filter (in_contest id) (participations s))));
    cbn [fst snd participations contests].
  - split_and!; [done|done|lia|done].
  - split_and!; [done| | |lia].
    + intros id' Hne. by rewrite lookup_delete_ne.
    + intros _. by rewrite lookup_delete_eq.
Qed.

Lemma deleteContest_only_without_participants_witness :
  (deleteContest 7 quiz_store_full).2 = quiz_store_full
  /\ contests (deleteContest 7 quiz_store).2 !! 7%nat = None.
Proof.
  split.
  - destruct (deleteContest_only_without_participants quiz_store_full 7%nat
                (set_currentParticipants quiz 1) eq_refl) as (_ & _ & _ & Hkeep).
    apply Hkeep. discriminate.
  - destruct (deleteContest_only_without_participants quiz_store 7%nat
                quiz eq_refl) as (_ & _ & Hgone & _).
    apply Hgone. reflexivity.
Defined.

Lemma presave_ok_set_status c st : presave_ok (set_status c st) = presave_ok c.
Proof. reflexivity. Qed.

(** X15.  The stored status gates joining whatever the clock says.  After
    the administrator sets a status other than ONGOING no join is admitted,
    even inside the time window; after ONGOING is set, a join by an eligible
    identity that has not joined, inside the window and with a free seat,
    is admitted - and outside the window it still is not. *)
Theorem changeStatus_gates_join s id requested st contest user now createdAt :
  contests s !! id = Some contest ->
  presave_ok contest = true ->
  status_of_name requested = Some st ->
  let s' := (changeStatus id requested s).2 in
  let o := run (joinContest user id now createdAt) s' in
  contests s' !! id = Some (set_status contest st)
  /\ participations s' = participations s
  /\ (st <> ONGOING ->
      final o = s'
      /\ exists r, response o = Some r /\ success r = false)
  /\ (st = ONGOING ->
      isActive contest = true ->
      (ctype contest = VIP -> role user = vip \/ role user = admin) ->
      (forall p, p ∈ participations s ->
                 ~ is_participation_of (user_id user) id p) ->
      (currentParticipants contest < maxParticipants contest)%nat ->
      (startTime contest <= now <= endTime contest ->
       exists p, response o = Some (mkReply 201 true (JoinedContest p)))
      /\ (~ startTime contest <= now <= endTime contest ->
          final o = s'
          /\ exists r, response o = Some r /\ error_kind r = Some NotOpen)).
Proof.
  intros Hfound Hok Hname s' o. subst s' o.
  unfold changeStatus. rewrite Hname, Hfound. cbv zeta.
  rewrite presave_ok_set_status, Hok. cbn [snd].
  set (c' := set_status contest st).
  set (s' := mkStore (<[id := c']> (contests s)) (participations s)).
  assert (contests s' !! id = Some c') as Hfound'
    by (unfold s'; cbn; apply lookup_insert_eq).
  split; [done|]. split; [done|].
  rewrite joinContest_run, Hfound'.
  assert (forall m, exists r : Reply,
            Some (mkReply 400 false m) = Some r /\ success r = false)
    as Hrej by (intros m; eauto).
  split.
  - intros Hst.
    destruct (negb (isActive c')); [split; [done|apply Hrej]|].
    destruct (vip_only c' (role user)); [split; [done|apply Hrej]|].
    destruct (list_find _ (participations s')); [split; [done|apply Hrej]|].
    destruct (now <? startTime c'); [split; [done|apply Hrej]|].
    destruct (now >? endTime c'); [split; [done|apply Hrej]|].
    assert (bool_decide (status c' <> ONGOING) = true) as ->
      by (by apply bool_decide_eq_true).
    split; [done|apply Hrej].
  - intros -> Hactive Helig Hnew Hfree. subst c' s'.
    cbn [participations].
    apply vip_only_false in Helig.
    apply (list_find_none_iff (is_participation_of (user_id user) id)) in Hnew.
    set (c' := set_status contest ONGOING).
    assert (isActive c' = true) as -> by exact Hactive.
    assert (vip_only c' (role user) = false) as -> by exact Helig.
    assert (startTime c' = startTime contest) as -> by reflexivity.
    assert (endTime c' = endTime contest) as -> by reflexivity.
    assert (bool_decide (status c' <> ONGOING) = false) as ->
      by (by apply bool_decide_eq_false; intros H; apply H).
    assert (maxParticipants c' = maxParticipants contest) as -> by reflexivity.
    assert (currentParticipants c' = currentParticipants contest) as ->
      by reflexivity.
    rewrite Hnew. cbn [negb].
    split.
    + intros [Hs He].
      assert ((now <? startTime contest) = false) as -> by (apply Z.ltb_ge; lia).
      assert ((now >? endTime contest) = false) as ->
        by (rewrite Z.gtb_ltb; apply Z.ltb_ge; lia).
      assert ((maxParticipants contest <=? currentParticipants contest)%nat
              = false) as -> by (apply Nat.leb_gt; lia).
      cbv zeta. rewrite presave_ok_set_currentParticipants.
      assert (presave_ok c' = true) as -> by exact Hok.
      cbn [response]. eauto.
    + intros Hout.
      destruct (Z.ltb_spec now (startTime contest)); [cbn; eauto|].
      destruct (Z.gtb_spec now (endTime contest)); [cbn; eauto|].
      exfalso. apply Hout. lia.
Qed.

Lemma changeStatus_gates_join_witness :
  let closed := (changeStatus 7 "ENDED" quiz_store).2 in
  let reopened := (changeStatus 7 "ONGOING" closed).2 in
  final (run (joinContest alice 7 150 150) closed) = closed
  /\ exists p, response (run (joinContest alice 7 150 150) reopened)
               = Some (mkReply 201 true (JoinedContest p)).
Proof.
  intros closed reopened. split.
  - destruct (changeStatus_gates_join quiz_store 7%nat "ENDED" ENDED quiz
                alice 150 150 eq_refl eq_refl eq_refl)
      as (_ & _ & Hclosed & _).
    apply Hclosed. discriminate.
  - destruct (changeStatus_gates_join closed 7%nat "ONGOING" ONGOING
                (set_status quiz ENDED) alice 150 150 eq_refl eq_refl eq_refl)
      as (_ & _ & _ & Hopen).
    apply Hopen.
    + reflexivity.
    + reflexivity.
    + intros Hvip. discriminate Hvip.
    + intros p Hp. by apply elem_of_nil in Hp.
    + simpl. lia.
    + simpl. lia.
Defined.

(** ** Questions, continued *)

Lemma addQuestion_run s id b now contest :
  contests s !! id = Some contest ->
  now < startTime contest ->
  run (addQuestion id b now) s =
  if bool_decide (in_type b = true_false)
     && negb (length (in_options b) =? 2)%nat
  then mkOutcome s (Some (mkReply 400 false TrueFalseNeedsTwoOptions)) false
  else if bool_decide (in_type b = single_select)
          && negb (length (List.filter isCorrect (in_options b)) =? 1)%nat
  then mkOutcome s (Some (mkReply 400 false SingleSelectNeedsOneCorrect)) false
  else if (length (List.filter isCorrect (in_options b)) =? 0)%nat
  then mkOutcome s (Some (mkReply 400 false NeedsOneCorrectOption)) false
  else
    let qs := questions contest ++ [question_of_input b] in
    if presave_ok (set_questions contest qs)
    then mkOutcome
           (mkStore (<[id := set_questions contest qs]> (contests s))
                    (participations s))
           (Some (mkReply 201 true (QuestionAdded (last qs) (length qs))))
           false
    else mkOutcome s (Some (mkReply 200 false InternalServerError)) false.
Proof.
  intros Hfound Hbefore. unfold addQuestion. unfold_handler.
  rewrite Hfound. handler_step.
  assert ((now >=? startTime contest) = false) as ->
    by (rewrite Z.geb_leb; apply Z.leb_gt; lia).
  destruct (bool_decide (in_type b = true_false) && _); [reflexivity|].
  destruct (bool_decide (in_type b = single_select) && _); [reflexivity|].
  destruct (length (List.filter isCorrect (in_options b)) =? 0)%nat;
    [reflexivity|].
  handler_step. destruct (presave_ok _); reflexivity.
Qed.

Lemma deleteQuestion_run s id questionIndex now contest :
  contests s !! id = Some contest ->
  now < startTime contest ->
  index_out_of_range questionIndex (length (questions contest)) = false ->
  run (deleteQuestion id questionIndex now) s =
  let qs := splice_one (questions contest) questionIndex in
  if presave_ok (set_questions contest qs)
  then mkOutcome
         (mkStore (<[id := set_questions contest qs]> (contests s))
                  (participations s))
         (Some (mkReply 200 true (QuestionDeleted (length qs)))) false
  else mkOutcome s (Some (mkReply 200 false InternalServerError)) false.
Proof.
  intros Hfound Hbefore Hrange. unfold deleteQuestion. unfold_handler.
  rewrite Hfound. handler_step. rewrite Hrange.
  assert ((now >=? startTime contest) = false) as ->
    by (rewrite Z.geb_leb; apply Z.leb_gt; lia).
  handler_step. destruct (presave_ok _); reflexivity.
Qed.

Lemma editQuestion_run s id questionIndex b now contest :
  contests s !! id = Some contest ->
  now < startTime contest ->
  index_out_of_range questionIndex (length (questions contest)) = false ->
  run (editQuestion id questionIndex b now) s =
  let qs := assign_question (questions contest) questionIndex
              (question_of_input b) in
  if presave_ok (set_questions contest qs)
  then mkOutcome
         (mkStore (<[id := set_questions contest qs]> (contests s))
                  (participations s))
         (Some (mkReply 200 true (QuestionUpdated (question_at qs questionIndex))))
         false
  else mkOutcome s (Some (mkReply 200 false InternalServerError)) false.
Proof.
  intros Hfound Hbefore Hrange. unfold editQuestion. unfold_handler.
  rewrite Hfound. handler_step. rewrite Hrange.
  assert ((now >=? startTime contest) = false) as ->
    by (rewrite Z.geb_leb; apply Z.leb_gt; lia).
  handler_step. destruct (presave_ok _); reflexivity.
Qed.

Lemma set_questions_same contest : set_questions contest (questions contest) = contest.
Proof. by destruct contest. Qed.

Lemma store_same_contest s id contest :
  contests s !! id = Some contest ->
  mkStore (<[id := contest]> (contests s)) (participations s) = s.
Proof. intros Hfound. rewrite insert_id by done. by destruct s. Qed.

Lemma delete_last {A} (l : list A) x : delete (length l) (l ++ [x]) = l.
Proof.
  induction l as [|a l IH]; [done|].
  change (a :: delete (length l) (l ++ [x]) = a :: l). by rewrite IH.
Qed.

(** X16.  Before the contest starts, adding a question and then deleting
    the question at the new last index restores the store exactly; the
    deletion reports the old number of questions. *)
Theorem add_then_delete_question s id contest b now now' r :
  contests s !! id = Some contest ->
  now < startTime contest ->
  now' < startTime contest ->
  response (run (addQuestion id b now) s) = Some r ->
  success r = true ->
  let added := final (run (addQuestion id b now) s) in
  let o := run (deleteQuestion id (Int (Z.of_nat (length (questions contest))))
                  now') added in
  questions <$> contests added !! id
  = Some (questions contest ++ [question_of_input b])
  /\ final o = s
  /\ response o
     = Some (mkReply 200 true (QuestionDeleted (length (questions contest)))).
Proof.
  intros Hfound Hnow Hnow' Hr Hok added o. subst added o.
  rewrite (addQuestion_run _ _ _ _ _ Hfound Hnow) in Hr |- *.
  repeat (case_match; [injection Hr as <-; discriminate Hok|]).
  cbv zeta in *.
  destruct (presave_ok (set_questions contest _)) eqn:Hsave;
    [|injection Hr as <-; discriminate Hok].
  cbn [final contests]. rewrite lookup_insert_eq. split; [done|].
  set (contest1 := set_questions contest _).
  set (s1 := mkStore _ _).
  assert (contests s1 !! id = Some contest1) as Hfound1
    by (unfold s1; cbn; apply lookup_insert_eq).
  rewrite (deleteQuestion_run s1 id _ now' contest1 Hfound1).
  2:{ exact Hnow'. }
  2:{ unfold contest1. cbn [questions set_questions index_out_of_range].
      rewrite length_app. cbn [length].
      apply orb_false_iff. split; [apply Z.ltb_ge; lia|].
      rewrite Z.geb_leb. apply Z.leb_gt. lia. }
  cbv zeta. cbn [splice_one]. rewrite Nat2Z.id.
  assert (questions contest1 = questions contest ++ [question_of_input b])
    as -> by reflexivity.
  rewrite delete_last.
  assert (set_questions contest1 (questions contest) = contest) as ->
    by (unfold contest1; by destruct contest).
  assert (presave_ok contest = true) as ->.
  { unfold presave_ok in *. cbn [questions set_questions] in Hsave.
    rewrite forallb_app in Hsave. by apply andb_true_iff in Hsave as [-> _]. }
  cbn [final response]. split; [|done].
  unfold s1. cbn [contests participations].
  rewrite insert_insert_eq. by apply store_same_contest.
Qed.

Lemma add_then_delete_question_witness :
  let added := final (run (addQuestion 7 new_question 50) draft_store) in
  length <$> (questions <$> contests added !! 7%nat) = Some 2%nat
  /\ final (run (deleteQuestion 7 (Int 1) 60) added) = draft_store.
Proof.
  destruct (add_then_delete_question draft_store 7%nat
              (set_status quiz UPCOMING) new_question 50 60
              (mkReply 201 true
                 (QuestionAdded (Some (question_of_input new_question)) 2)))
    as (Hq & Hs & _).
  - reflexivity.
  - simpl. lia.
  - simpl. lia.
  - reflexivity.
  - reflexivity.
  - cbv zeta. split; [by rewrite Hq|exact Hs].
Defined.

(** X17.  A question index that is not a number slips through the range
    test, every comparison with [NaN] being false.  Before the start,
    [deleteQuestion] then removes the first question ([splice] reads [NaN]
    as 0), and [editQuestion] reports success while the question list stays
    as it was. *)
Theorem question_index_not_a_number s id contest b now :
  contests s !! id = Some contest ->
  now < startTime contest ->
  presave_ok contest = true ->
  (final (run (editQuestion id NaN b now) s) = s
   /\ exists shown,
        response (run (editQuestion id NaN b now) s)
        = Some (mkReply 200 true (QuestionUpdated shown)))
  /\ (questions <$> contests (final (run (deleteQuestion id NaN now) s)) !! id)
     = Some (tail (questions contest))
  /\ response (run (deleteQuestion id NaN now) s)
     = Some (mkReply 200 true
               (QuestionDeleted (length (tail (questions contest))))).
Proof.
  intros Hfound Hnow Hok.
  rewrite (editQuestion_run s id NaN b now contest Hfound Hnow eq_refl).
  rewrite (deleteQuestion_run s id NaN now contest Hfound Hnow eq_refl).
  cbv zeta. cbn [assign_question splice_one question_at].
  rewrite set_questions_same, Hok.
  assert (delete 0%nat (questions contest) = tail (questions contest)) as ->
    by (by destruct (questions contest)).
  assert (presave_ok (set_questions contest (tail (questions contest))) = true)
    as ->.
  { unfold presave_ok in *. cbn [questions set_questions].
    destruct (questions contest) as [|q qs]; [done|].
    cbn in Hok |- *. by apply andb_true_iff in Hok as [_ ->]. }
  cbn [final response contests]. rewrite lookup_insert_eq.
  split; [|done]. split; [by apply store_same_contest|eauto].
Qed.

Lemma question_index_not_a_number_witness :
  (questions <$> contests (final (run (deleteQuestion 7 NaN 50) draft_store))
                   !! 7%nat)
  = Some []
  /\ final (run (editQuestion 7 NaN new_question 50) draft_store) = draft_store.
Proof.
  destruct (question_index_not_a_number draft_store 7%nat
              (set_status quiz UPCOMING) new_question 50)
    as ((Hedit & _) & Hdel & _).
  - reflexivity.
  - simpl. lia.
  - reflexivity.
  - split; [exact Hdel|exact Hedit].
Defined.

(** X18.  [addQuestion] tests less than the pre-save hook: a true-false
    question with two options, both flagged correct, passes the handler's
    own tests and is then refused by the hook on [save]; the reply is the
    200 "Internal Server Error" of the [catch] block and nothing is
    stored. *)
Theorem addQuestion_true_false_both_correct s id contest b now o1 o2 :
  contests s !! id = Some contest ->
  now < startTime contest ->
  in_type b = true_false ->
  in_options b = [o1; o2] ->
  isCorrect o1 = true -> isCorrect o2 = true ->
  let o := run (addQuestion id b now) s in
  final o = s
  /\ response o = Some (mkReply 200 false InternalServerError)
  /\ rejected o = false.
Proof.
  intros Hfound Hnow Hty Hopts Hc1 Hc2 o. subst o.
  rewrite (addQuestion_run _ _ _ _ _ Hfound Hnow).
  rewrite Hty, Hopts. cbn [List.filter length]. rewrite Hc1, Hc2.
  cbn [length Nat.eqb negb andb bool_decide decide_rel].
  assert (bool_decide (true_false = single_select) = false) as ->
    by (by apply bool_decide_eq_false).
  rewrite andb_false_r. cbn [andb]. cbv zeta.
  assert (presave_ok
            (set_questions contest (questions contest ++ [question_of_input b]))
          = false) as ->; [|done].
  unfold presave_ok. cbn [questions set_questions].
  rewrite forallb_app. apply andb_false_iff. right.
  unfold question_of_input, question_presave_ok.
  rewrite Hty, Hopts. cbn [qtype options List.filter forallb].
  rewrite Hc1, Hc2. reflexivity.
Qed.

Lemma addQuestion_true_false_both_correct_witness :
  let b := mkQuestionInput "The earth is round and it is a planet." true_false
             [mkOpt "True" true; mkOpt "False" true] 1 in
  final (run (addQuestion 7 b 50) draft_store) = draft_store
  /\ response (run (addQuestion 7 b 50) draft_store)
     = Some (mkReply 200 false InternalServerError).
Proof.
  intros b.
  destruct (addQuestion_true_false_both_correct draft_store 7%nat
              (set_status quiz UPCOMING) b 50
              (mkOpt "True" true) (mkOpt "False" true))
    as (Hs & Hr & _).
  - reflexivity.
  - simpl. lia.
  - reflexivity.
  - reflexivity.
  - reflexivity.
  - reflexivity.
  - split; [exact Hs|exact Hr].
Defined.

(** ** Contest updates *)

Lemma no_allowed_field_assign contest b :
  no_allowed_field b = true -> assign_fields contest (allowed_only b) = contest.
Proof.
  unfold no_allowed_field, assign_fields, allowed_only.
  destruct b as [n d t st en pr mx]; cbn.
  destruct d, pr, mx; cbn; try done. intros _. by destruct contest.
Qed.

(** X19.  Once a contest has started, [updateContest] can change its
    description, prize text and capacity only: name, type, start and end
    time, status, questions, participant counter and active flag stay as
    stored whatever the body holds; a body with none of the three fields is
    refused with 400.  No participation and no other contest is touched.
    This holds whatever the schema validators decide on [save]. *)
Theorem updateContest_started validators_pass s id b now contest :
  contests s !! id = Some contest ->
  startTime contest <= now ->
  let r := (updateContest validators_pass id b now s).1 in
  let s' := (updateContest validators_pass id b now s).2 in
  participations s' = participations s
  /\ (forall id', id' <> id -> contests s' !! id' = contests s !! id')
  /\ (exists c',
        contests s' !! id = Some c'
        /\ name c' = name contest /\ ctype c' = ctype contest
        /\ startTime c' = startTime contest /\ endTime c' = endTime contest
        /\ status c' = status contest /\ questions c' = questions contest
        /\ currentParticipants c' = currentParticipants contest
        /\ isActive c' = isActive contest)
  /\ (no_allowed_field b = true ->
      s' = s /\ r = mkAdminReply 400 false CannotUpdateStartedContest).
Proof.
  intros Hfound Hstarted r s'. subst r s'. unfold updateContest.
  rewrite Hfound.
  assert ((now >=? startTime contest) = true) as ->
    by (rewrite Z.geb_leb; apply Z.leb_le; lia).
  cbn [andb].
  destruct (no_allowed_field b) eqn:Hnone; cbn [fst snd].
  - split_and!; [done|done|eauto 12|done].
  - cbv zeta.
    destruct (validators_pass contest _ && presave_ok _); cbn [fst snd];
      (split_and!; [done| | |done]).
    + intros id' Hne. cbn. by rewrite lookup_insert_ne.
    + cbn [contests]. rewrite lookup_insert_eq. eexists. split; [done|].
      by repeat split.
    + done.
    + eauto 12.
Qed.

Lemma updateContest_started_witness :
  let b := mkUpdateInput (Some "Renamed") None (Some VIP) (Some 500) None
             (Some "A bigger cup") None in
  let s' := (updateContest (fun _ _ => true) 7 b 150 quiz_store).2 in
  (name <$> contests s' !! 7%nat) = Some "Quiz"
  /\ (prizeInfo <$> contests s' !! 7%nat) = Some "A bigger cup".
Proof.
  intros b s'.
  destruct (updateContest_started (fun _ _ => true) quiz_store 7%nat b 150 quiz)
    as (_ & _ & (c' & Hc' & Hname & _) & _).
  - reflexivity.
  - simpl. lia.
  - fold s' in Hc'. split; [|reflexivity].
    rewrite Hc'. cbn [fmap option_fmap option_map]. by rewrite Hname.
Defined.

(** X20.  [updateContest] does not compare a new capacity with the seats
    already taken: when the validators and the hook accept the document, a
    started contest gets exactly the [maxParticipants] of the body, and if
    that is below [currentParticipants] the stored counter then exceeds the
    capacity. *)
Theorem updateContest_capacity_unchecked validators_pass s id b now contest m :
  contests s !! id = Some contest ->
  startTime contest <= now ->
  up_maxParticipants b = Some m ->
  validators_pass contest (assign_fields contest (allowed_only b)) = true ->
  presave_ok contest = true ->
  let s' := (updateContest validators_pass id b now s).2 in
  exists c',
    contests s' !! id = Some c'
    /\ maxParticipants c' = m
    /\ currentParticipants c' = currentParticipants contest
    /\ ((m < currentParticipants contest)%nat -> ~ counters_consistent s').
Proof.
  intros Hfound Hstarted Hmax Hvalid Hok s'. subst s'. unfold updateContest.
  rewrite Hfound.
  assert ((now >=? startTime contest) = true) as ->
    by (rewrite Z.geb_leb; apply Z.leb_le; lia).
  assert (no_allowed_field b = false) as ->.
  { unfold no_allowed_field. rewrite Hmax.
    rewrite (bool_decide_eq_true_2 (is_Some (Some m))) by eauto.
    cbn. apply andb_false_r. }
  cbn [andb]. cbv zeta. rewrite Hvalid.
  assert (presave_ok (assign_fields contest (allowed_only b)) = true) as ->
    by exact Hok.
  cbn [andb snd contests]. rewrite lookup_insert_eq.
  eexists. split; [done|]. cbn [maxParticipants assign_fields allowed_only
                               up_maxParticipants currentParticipants].
  rewrite Hmax. cbn [default]. split; [done|]. split; [done|].
  intros Hless Hinv.
  destruct (Hinv id _ (lookup_insert_eq _ _ _)) as (_ & _ & Hcap).
  cbn in Hcap. rewrite Hmax in Hcap. cbn in Hcap. lia.
Qed.

Lemma updateContest_capacity_unchecked_witness :
  let b := mkUpdateInput None None None None None None (Some 1%nat) in
  let s' := (updateContest (fun _ c => (1 <=? maxParticipants c)%nat) 7 b 150
               two_seated_store).2 in
  (maxParticipants <$> contests s' !! 7%nat) = Some 1%nat
  /\ (currentParticipants <$> contests s' !! 7%nat) = Some 2%nat
  /\ ~ counters_consistent s'.
Proof.
  intros b s'.
  destruct (updateContest_capacity_unchecked
              (fun _ c => (1 <=? maxParticipants c)%nat)
              two_seated_store 7%nat b 150 quiz3 1%nat)
    as (c' & Hc' & Hmax & Hcur & Hbroken).
  - reflexivity.
  - simpl. lia.
  - reflexivity.
  - reflexivity.
  - reflexivity.
  - fold s' in Hc', Hbroken. rewrite Hc'. cbn [fmap option_fmap option_map].
    rewrite Hmax, Hcur. split; [done|]. split; [done|].
    apply Hbroken. simpl. lia.
Defined.

(** ** Looking at a contest *)

Lemma contestById_detail s user id now contest d :
  contests s !! id = Some contest ->
  contestById user id now s = Detail d ->
  isActive contest = true
  /\ may_view contest user
  /\ let participation :=
       match user with
       | None => None
       | Some u => snd <$> list_find (is_participation_of (user_id u) id)
                             (participations s)
       end in
     let shown := bool_decide (is_Some participation) || (now >? endTime contest) in
     cd_questions d = (if shown then Some (questions contest) else None)
     /\ cd_totalQuestions d
        = (if shown then Some (length (questions contest)) else None)
     /\ cd_participation d
        = match participation with
          | Some p =>
              HasJoined (joinedAt p) (submittedAt p) (isCompleted p)
                (score p) (rank p) (answers p)
          | None => NotJoined (isCurrentlyActive contest now)
          end.
Proof.
  intros Hfound. unfold contestById. rewrite Hfound.
  destruct (isActive contest); [|done]. cbn [negb].
  destruct (bool_decide (ctype contest = VIP) && _) eqn:Hvip; [done|].
  intros [= <-]. split; [done|]. split; [|done].
  intros Hty. rewrite bool_decide_eq_true_2 in Hvip by done. cbn in Hvip.
  destruct user as [u|]; [|done]. exists u. split; [done|].
  destruct (role u); [discriminate Hvip|by left|by right].
Qed.

(** X21.  The [canJoin] flag of [contestById] is the time-and-status test
    of [joinContest] and nothing more.  When it is false a join at that
    moment is refused as NotOpen; when it is true the join is admitted if a
    seat is free, and refused as Full otherwise - the flag does not look at
    the capacity.  A caller shown as joined is refused as AlreadyJoined. *)
Theorem canJoin_and_joinContest s user id now createdAt contest d :
  contests s !! id = Some contest ->
  presave_ok contest = true ->
  contestById (Some user) id now s = Detail d ->
  let o := run (joinContest user id now createdAt) s in
  (cd_participation d = NotJoined false ->
   final o = s /\ exists r, response o = Some r /\ error_kind r = Some NotOpen)
  /\ (cd_participation d = NotJoined true ->
      (currentParticipants contest < maxParticipants contest)%nat ->
      exists p, response o = Some (mkReply 201 true (JoinedContest p)))
  /\ (cd_participation d = NotJoined true ->
      (maxParticipants contest <= currentParticipants contest)%nat ->
      final o = s /\ response o = Some (mkReply 400 false ContestIsFull))
  /\ (forall j sub done sc rk ans,
        cd_participation d = HasJoined j sub done sc rk ans ->
        final o = s /\ response o = Some (mkReply 400 false AlreadyJoinedContest)).
Proof.
  intros Hfound Hok Hdetail o. subst o.
  destruct (contestById_detail _ _ _ _ _ _ Hfound Hdetail)
    as (Hactive & Hview & _ & _ & Hpart).
  cbv zeta in Hpart. rewrite Hpart. clear Hpart.
  assert (vip_only contest (role user) = false) as Hvip.
  { apply vip_only_false. intros Hty.
    destruct (Hview Hty) as (u & [= <-] & Hrole). done. }
  rewrite joinContest_run, Hfound, Hactive, Hvip. cbn [negb].
  destruct (list_find _ (participations s)) as [[i p]|]; cbn [fmap option_fmap option_map snd].
  { split_and!; try done. }
  unfold isCurrentlyActive.
  destruct (Z.ltb_spec now (startTime contest)) as [Hs|Hs].
  { assert ((now >=? startTime contest) = false) as ->
      by (rewrite Z.geb_leb; apply Z.leb_gt; lia).
    cbn [andb]. split_and!; try done. intros _. cbn. eauto. }
  assert ((now >=? startTime contest) = true) as ->
    by (rewrite Z.geb_leb; apply Z.leb_le; lia).
  destruct (Z.gtb_spec now (endTime contest)) as [He|He].
  { assert ((now <=? endTime contest) = false) as -> by (apply Z.leb_gt; lia).
    cbn [andb]. split_and!; try done. intros _. cbn. eauto. }
  assert ((now <=? endTime contest) = true) as -> by (apply Z.leb_le; lia).
  cbn [andb].
  destruct (decide (status contest = ONGOING)) as [Hst|Hst].
  - rewrite (bool_decide_eq_true_2 _ Hst).
    rewrite (bool_decide_eq_false_2 (status contest <> ONGOING)) by auto.
    split_and!; try done.
    + intros _ Hfree.
      assert ((maxParticipants contest <=? currentParticipants contest)%nat
              = false) as -> by (apply Nat.leb_gt; lia).
      cbv zeta. rewrite presave_ok_set_currentParticipants, Hok.
      cbn [response]. eauto.
    + intros _ Hfull.
      assert ((maxParticipants contest <=? currentParticipants contest)%nat
              = true) as -> by (apply Nat.leb_le; lia).
      done.
  - rewrite (bool_decide_eq_false_2 _ Hst).
    rewrite (bool_decide_eq_true_2 (status contest <> ONGOING)) by done.
    split_and!; try done. intros _. cbn. eauto.
Qed.

Lemma canJoin_and_joinContest_witness :
  (exists d, contestById (Some bob) 7 150 quiz_store_full = Detail d
             /\ cd_participation d = NotJoined true)
  /\ response (run (joinContest bob 7 150 150) quiz_store_full)
     = Some (mkReply 400 false ContestIsFull).
Proof.
  split; [eexists; split; reflexivity|].
  destruct (canJoin_and_joinContest quiz_store_full bob 7%nat 150 150
              (set_currentParticipants quiz 1) _ eq_refl eq_refl eq_refl)
    as (_ & _ & Hfull & _).
  apply Hfull; [reflexivity|simpl; lia].
Defined.

(** X22.  [contestById] never shows the questions of a running or coming
    contest to a caller who has not joined it: they (and their number) are
    part of the reply exactly when the caller has a participation in the
    contest or the end time has passed; a caller without identity sees them
    only after the end. *)
Theorem contestById_shows_questions s user id now contest d :
  contests s !! id = Some contest ->
  contestById user id now s = Detail d ->
  let joined :=
    exists u p, user = Some u
                /\ p ∈ participations s
                /\ is_participation_of (user_id u) id p in
  (joined \/ endTime contest < now ->
   cd_questions d = Some (questions contest)
   /\ cd_totalQuestions d = Some (length (questions contest)))
  /\ (~ joined -> now <= endTime contest ->
      cd_questions d = None /\ cd_totalQuestions d = None).
Proof.
  intros Hfound Hdetail joined.
  destruct (contestById_detail _ _ _ _ _ _ Hfound Hdetail)
    as (_ & _ & Hq & Ht & _).
  cbv zeta in Hq, Ht. rewrite Hq, Ht. clear Hq Ht.
  set (participation := match user with None => None | Some u => _ end).
  assert (is_Some participation <-> joined) as Hjoined.
  { unfold participation, joined. destruct user as [u|].
    - rewrite fmap_is_Some. split.
      + intros [[i p] Hfind]. apply list_find_Some in Hfind as (Hi & Hp & _).
        exists u, p. split; [done|]. split; [|done].
        by eapply list_elem_of_lookup_2.
      + intros (u' & p & [= <-] & Hp & Hof). by eapply list_find_elem_of.
    - split; [by intros [? ?]|]. by intros (u & p & ? & _). }
  split.
  - intros [Hj|Hend].
    + rewrite bool_decide_eq_true_2 by (by apply Hjoined). done.
    + assert ((now >? endTime contest) = true) as ->
        by (rewrite Z.gtb_ltb; apply Z.ltb_lt; lia).
      by rewrite orb_true_r.
  - intros Hnot Hnow.
    rewrite bool_decide_eq_false_2 by (by rewrite Hjoined).
    assert ((now >? endTime contest) = false) as ->
      by (rewrite Z.gtb_ltb; apply Z.ltb_ge; lia).
    done.
Qed.

Lemma contestById_shows_questions_witness :
  (exists d, contestById (Some bob) 7 150 quiz_store_full = Detail d
             /\ cd_questions d = None)
  /\ (exists d, contestById (Some alice) 7 150 quiz_store_full = Detail d
                /\ cd_questions d = Some [quiz_question])
  /\ (exists d, contestById None 7 201 quiz_store_full = Detail d
                /\ cd_questions d = Some [quiz_question]).
Proof.
  split; [|split].
  - eexists. split; [reflexivity|].
    destruct (contestById_shows_questions quiz_store_full (Some bob) 7%nat 150
                (set_currentParticipants quiz 1) _ eq_refl eq_refl)
      as (_ & Hhidden).
    apply Hhidden; [|simpl; lia].
    intros (u & p & [= <-] & Hp & Hu & _).
    apply list_elem_of_singleton in Hp. subst p. discriminate Hu.
  - eexists. split; reflexivity.
  - eexists. split; reflexivity.
Defined.

(** ** Listing contests *)




(** ** Status and clock *)

(** X24.  Right after [updateStatus] has stamped the status from the
    clock, the virtual [isCurrentlyActive] holds exactly when
    start <= now <= end; stamping twice at the same time is stamping once,
    and only the status field is written.  On a status not refreshed the
    virtual also demands the stored ONGOING. *)
Theorem updateStatus_then_isCurrentlyActive c now :
  (isCurrentlyActive (updateStatus c now) now = true
   <-> startTime c <= now <= endTime c)
  /\ updateStatus (updateStatus c now) now = updateStatus c now
  /\ set_status (updateStatus c now) (status c) = c
  /\ (isCurrentlyActive c now = true
      <-> startTime c <= now <= endTime c /\ status c = ONGOING).
Proof.
  unfold isCurrentlyActive, updateStatus.
  destruct (Z.ltb_spec now (startTime c)) as [Hs|Hs].
  - assert ((now >=? startTime c) = false) as Hge
      by (rewrite Z.geb_leb; apply Z.leb_gt; lia).
    cbn [startTime endTime status set_status]. rewrite Hge.
    assert ((now <? startTime c) = true) as -> by (apply Z.ltb_lt; lia).
    cbn [andb]. split_and!; [split; [done|lia]|done|by destruct c|].
    split; [done|lia].
  - assert ((now >=? startTime c) = true) as Hge
      by (rewrite Z.geb_leb; apply Z.leb_le; lia).
    rewrite Hge. cbn [andb].
    destruct (Z.leb_spec now (endTime c)) as [He|He];
      cbn [startTime endTime status set_status];
      assert ((now <? startTime c) = false) as -> by (apply Z.ltb_ge; lia);
      rewrite Hge; cbn [andb].
    + assert ((now <=? endTime c) = true) as -> by (apply Z.leb_le; lia).
      cbn. split_and!; [split; [lia|done]|done|by destruct c|].
      rewrite bool_decide_eq_true. split; [intros ?; split; [lia|done]|].
      by intros [_ ?].
    + assert ((now <=? endTime c) = false) as -> by (apply Z.leb_gt; lia).
      cbn. split_and!; [split; [done|lia]|done|by destruct c|].
      split; [done|lia].
Qed.

Lemma submitContest_only_write_witness :
  let o := run (submitContest bob 7 [mkAnswerInput 0 [0%nat]] 160 161)
             quiz_store_full in
  participations quiz_store_full !! 0%nat
  = Some (mkParticipation 1 7 150 None [] 0 1 0 0 None false 0)
  /\ participations (final o) !! 0%nat
     = Some (mkParticipation 1 7 150 None [] 0 1 0 0 None false 0)
  /\ contests (final o) = contests quiz_store_full.
Proof.
  intros o.
  destruct (submitContest_only_write quiz_store_full bob 7%nat
              [mkAnswerInput 0 [0%nat]] 160 161) as (_ & Hc & _ & Hothers).
  split; [reflexivity|]. split; [|exact Hc].
  apply Hothers; [reflexivity|]. intros [Hu _]. discriminate Hu.
Defined.

Lemma updateStatus_then_isCurrentlyActive_witness :
  isCurrentlyActive (updateStatus (set_status quiz ENDED) 150) 150 = true
  /\ isCurrentlyActive (set_status quiz ENDED) 150 = false.
Proof.
  destruct (updateStatus_then_isCurrentlyActive (set_status quiz ENDED) 150)
    as (Hfresh & _).
  split; [|reflexivity]. apply Hfresh. simpl. lia.
Defined.
